(** * Spin control of the ESP8266 blinds controller (src/main.cpp)

    A shallow embedding of the sketch's global state and of the functions
    [startSpinning], [resetServo], [stopSpinning], [setup] and [loop],
    together with the properties of the spin-control state machine.

    - [double] values are Rocq's primitive IEEE 754 binary64 floats, so
      [==], [<], [>] and the arithmetic are the ones the board computes
      (NaN, signed zeros and infinities included);
    - [unsigned long] / [unsigned int] are 32 bits wide on the ESP8266 and
      are carried as [Z] with the wrap-around written out;
    - the servo, the EEPROM and the pins are observed through a log of
      driver calls; serial printing is not modelled. *)

From Stdlib Require Import ZArith List Bool Lia.
From Stdlib Require Import Floats.
Import ListNotations.

Local Open Scope Z_scope.

(** ** Machine integers *)

Definition two32 : Z := 2 ^ 32.

(** Reduction of an [unsigned int] / [unsigned long] result. *)
Definition u32 (z : Z) : Z := z mod two32.

(** [a - b] on [unsigned long]. *)
Definition sub32 (a b : Z) : Z := u32 (a - b).

Definition LONG_MIN : Z := - 2 ^ 31.
Definition LONG_MAX : Z := 2 ^ 31 - 1.

(** ** Conversions between integers and [double] *)

(** [(double)n] for an unsigned 32-bit [n] (exact: [n < 2^53]). *)
Definition double_of_unsigned (n : Z) : float :=
  PrimFloat.of_uint63 (Uint63.of_Z n).

(** [(double)n] for a signed [long] [n]. *)
Definition double_of_long (n : Z) : float :=
  if n <? 0 then PrimFloat.opp (double_of_unsigned (- n))
  else double_of_unsigned n.

(** The integer part of a finite binary float, rounded toward zero. *)
Definition SFtrunc (x : spec_float) : option Z :=
  match x with
  | S754_zero _ => Some 0
  | S754_finite s m e =>
      let v := match e with
               | Zneg p => Z.pos m / 2 ^ Z.pos p
               | _ => Z.pos m * 2 ^ e
               end in
      Some (if s then - v else v)
  | S754_infinity _ | S754_nan => None
  end.

(** The conversion [(long)x] is defined by C++ exactly when [x] is finite
    and its integer part fits a [long]. *)
Definition long_defined (x : float) : bool :=
  match SFtrunc (Prim2SF x) with
  | Some v => (LONG_MIN <=? v) && (v <=? LONG_MAX)
  | None => false
  end.

(** [(long)x]: the integer part where it fits a [long].  Where C++ leaves
    the conversion undefined (NaN, an infinity, an integer part beyond a
    [long]) the result is some [long]; the model takes [LONG_MIN], the
    value the conversion instruction of common processors yields there.
    A statement below that reads the result of such a conversion either
    assumes [long_defined] or holds for every [long]. *)
Definition long_of_double (x : float) : Z :=
  match SFtrunc (Prim2SF x) with
  | Some v => if (LONG_MIN <=? v) && (v <=? LONG_MAX) then v else LONG_MIN
  | None => LONG_MIN
  end.

(** Arduino's [abs] macro: [((x)>0?(x):-(x))]. *)
Definition arduino_abs (x : float) : float :=
  if PrimFloat.ltb 0 x then x else PrimFloat.opp x.

(** ** Build-time configuration (Config.h) and board constants *)

Record Config : Type := {
  DEFAULT_SECONDS_TO_CLOSE : Z;
  DEFAULT_SECONDS_TO_OPEN : Z;
  SERVO_RESET_REQUIRED : bool;
  SERVO_RESET_EVERY_SECONDS : Z;
  SERVO_RESET_DELAY_MILLISECONDS : Z;
  SERVO_STOP_SIGNAL_REQUIRED : bool;
  SERVO_STOP_DUTYCYCLE : Z;
  SERVO_STOP_SIGNAL_MILLISECONDS : Z;
  LED_BUILTIN : Z
}.

Inductive Level : Type := LOW | HIGH.

Definition servoPin : Z := 2.

(** ** EEPROM *)

Definition sizeof_bool : Z := 1.
Definition sizeof_unsigned_int : Z := 4.

Record EepromAddresses : Type := {
  addr_initialized : Z;
  addr_secondsToClose : Z;
  addr_secondsToOpen : Z;
  addr_currentPosition : Z
}.

Definition eepromAddresses : EepromAddresses := {|
  addr_initialized := 0;
  addr_secondsToClose := sizeof_bool;
  addr_secondsToOpen := sizeof_bool + sizeof_unsigned_int;
  addr_currentPosition := sizeof_bool + sizeof_unsigned_int * 2
|}.

(** The four values the sketch keeps in EEPROM.  Their byte ranges are
    disjoint, so they are kept as four typed cells. *)
Record Cells : Type := {
  cell_initialized : bool;
  cell_secondsToClose : Z;
  cell_secondsToOpen : Z;
  cell_currentPosition : float
}.

(** The ESP8266 EEPROM library works on a RAM copy ([put]/[get]); only
    [commit] writes the copy to flash. *)
Record Eeprom : Type := {
  ram : Cells;
  flash : Cells
}.

(** ** Driver calls observed from outside *)

Inductive Event : Type :=
| DigitalWrite (pin : Z) (level : Level)
| ServoAttach (pin : Z)
| ServoWrite (duty : Z)
| ServoDetach
| Delay (ms : Z)
| EepromPutInitialized (addr : Z) (v : bool)
| EepromPutUInt (addr : Z) (v : Z)
| EepromPutDouble (addr : Z) (v : float)
| EepromCommit.

(** ** Global state of the sketch *)

Record State : Type := {
  secondsToClose : Z;
  secondsToOpen : Z;
  milliesPerPercentClose : Z;
  millisPerPercentOpen : Z;
  startingPosition : float;
  currentPosition : float;
  desiredPosition : float;
  spinning : bool;
  direction : Z;          (* 1 is closing, -1 is opening *)
  dutyCycle : Z;          (* 0 is counter-clockwise, 180 is clockwise *)
  previousMillis : Z;
  lastResetMillis : Z;
  interval : Z;
  eeprom : Eeprom;
  log : list Event        (* newest call first *)
}.

Definition emit (e : Event) (s : State) : State :=
  {| secondsToClose := secondsToClose s;
     secondsToOpen := secondsToOpen s;
     milliesPerPercentClose := milliesPerPercentClose s;
     millisPerPercentOpen := millisPerPercentOpen s;
     startingPosition := startingPosition s;
     currentPosition := currentPosition s;
     desiredPosition := desiredPosition s;
     spinning := spinning s;
     direction := direction s;
     dutyCycle := dutyCycle s;
     previousMillis := previousMillis s;
     lastResetMillis := lastResetMillis s;
     interval := interval s;
     eeprom := eeprom s;
     log := e :: log s |}.

Definition set_eeprom (e : Eeprom) (s : State) : State :=
  {| secondsToClose := secondsToClose s;
     secondsToOpen := secondsToOpen s;
     milliesPerPercentClose := milliesPerPercentClose s;
     millisPerPercentOpen := millisPerPercentOpen s;
     startingPosition := startingPosition s;
     currentPosition := currentPosition s;
     desiredPosition := desiredPosition s;
     spinning := spinning s;
     direction := direction s;
     dutyCycle := dutyCycle s;
     previousMillis := previousMillis s;
     lastResetMillis := lastResetMillis s;
     interval := interval s;
     eeprom := e;
     log := log s |}.

Definition set_currentPosition (p : float) (s : State) : State :=
  {| secondsToClose := secondsToClose s;
     secondsToOpen := secondsToOpen s;
     milliesPerPercentClose := milliesPerPercentClose s;
     millisPerPercentOpen := millisPerPercentOpen s;
     startingPosition := startingPosition s;
     currentPosition := p;
     desiredPosition := desiredPosition s;
     spinning := spinning s;
     direction := direction s;
     dutyCycle := dutyCycle s;
     previousMillis := previousMillis s;
     lastResetMillis := lastResetMillis s;
     interval := interval s;
     eeprom := eeprom s;
     log := log s |}.

Definition set_spinning (b : bool) (s : State) : State :=
  {| secondsToClose := secondsToClose s;
     secondsToOpen := secondsToOpen s;
     milliesPerPercentClose := milliesPerPercentClose s;
     millisPerPercentOpen := millisPerPercentOpen s;
     startingPosition := startingPosition s;
     currentPosition := currentPosition s;
     desiredPosition := desiredPosition s;
     spinning := b;
     direction := direction s;
     dutyCycle := dutyCycle s;
     previousMillis := previousMillis s;
     lastResetMillis := lastResetMillis s;
     interval := interval s;
     eeprom := eeprom s;
     log := log s |}.

Definition set_lastResetMillis (t : Z) (s : State) : State :=
  {| secondsToClose := secondsToClose s;
     secondsToOpen := secondsToOpen s;
     milliesPerPercentClose := milliesPerPercentClose s;
     millisPerPercentOpen := millisPerPercentOpen s;
     startingPosition := startingPosition s;
     currentPosition := currentPosition s;
     desiredPosition := desiredPosition s;
     spinning := spinning s;
     direction := direction s;
     dutyCycle := dutyCycle s;
     previousMillis := previousMillis s;
     lastResetMillis := t;
     interval := interval s;
     eeprom := eeprom s;
     log := log s |}.

(** [EEPROM.put(eepromAddresses.currentPosition, v)] *)
Definition eeprom_put_currentPosition (v : float) (s : State) : State :=
  let c := ram (eeprom s) in
  emit (EepromPutDouble (addr_currentPosition eepromAddresses) v)
    (set_eeprom
       {| ram := {| cell_initialized := cell_initialized c;
                    cell_secondsToClose := cell_secondsToClose c;
                    cell_secondsToOpen := cell_secondsToOpen c;
                    cell_currentPosition := v |};
          flash := flash (eeprom s) |} s).

(** [EEPROM.commit()] *)
Definition eeprom_commit (s : State) : State :=
  emit EepromCommit
    (set_eeprom {| ram := ram (eeprom s); flash := ram (eeprom s) |} s).

Section Sketch.

Variable cfg : Config.

(** [const unsigned int millisPerServoReset = (SERVO_RESET_EVERY_SECONDS * 1000);] *)
Definition millisPerServoReset : Z := u32 (SERVO_RESET_EVERY_SECONDS cfg * 1000).

(** [(seconds * 1000) / 100] on [unsigned int]. *)
Definition millisPerPercent_of (seconds : Z) : Z := u32 (seconds * 1000) / 100.

(** The branch of [startSpinning] taken when the guard holds. *)
Definition startSpinning_body (newPosition : float) (now : Z) (s : State) : State :=
  let s1 := if spinning s then emit ServoDetach s else s in
  let desired := newPosition in
  let currentMillis := now in
  let up := PrimFloat.ltb (currentPosition s) desired in
  let millisPerPercent :=
    if up then millisPerPercentOpen s else milliesPerPercentClose s in
  let interval' :=
    long_of_double
      (PrimFloat.mul
         (arduino_abs (PrimFloat.sub desired (currentPosition s)))
         (double_of_unsigned millisPerPercent)) in
  let dutyCycle' := if up then 0 else 180 in
  let direction' := if up then 1 else -1 in
  {| secondsToClose := secondsToClose s;
     secondsToOpen := secondsToOpen s;
     milliesPerPercentClose := milliesPerPercentClose s;
     millisPerPercentOpen := millisPerPercentOpen s;
     startingPosition := currentPosition s;
     currentPosition := currentPosition s;
     desiredPosition := desired;
     spinning := true;
     direction := direction';
     dutyCycle := dutyCycle';
     previousMillis := currentMillis;
     lastResetMillis := currentMillis;
     interval := interval';
     eeprom := eeprom s;
     log := ServoWrite dutyCycle' :: ServoAttach servoPin :: log s1 |}.

(** The guard of [startSpinning]:
    [newPosition != desiredPosition || newPosition != currentPosition]. *)
Definition startSpinning_guard (newPosition : float) (s : State) : bool :=
  negb (PrimFloat.eqb newPosition (desiredPosition s))
  || negb (PrimFloat.eqb newPosition (currentPosition s)).

(** [void startSpinning(double newPosition)]; [now] is what [millis()]
    returns inside the call. *)
Definition startSpinning (newPosition : float) (now : Z) (s : State) : State :=
  let s0 := emit (DigitalWrite (LED_BUILTIN cfg) LOW) s in
  let s1 :=
    if startSpinning_guard newPosition s0
    then startSpinning_body newPosition now s0
    else s0 in
  emit (DigitalWrite (LED_BUILTIN cfg) HIGH) s1.

(** [void resetServo()] *)
Definition resetServo (s : State) : State :=
  emit (ServoWrite (dutyCycle s))
    (emit (ServoAttach servoPin)
       (emit (Delay (SERVO_RESET_DELAY_MILLISECONDS cfg))
          (emit ServoDetach s))).

(** [void stopSpinning()] *)
Definition stopSpinning (s : State) : State :=
  let s1 :=
    if SERVO_STOP_SIGNAL_REQUIRED cfg
    then emit (Delay (SERVO_STOP_SIGNAL_MILLISECONDS cfg))
           (emit (ServoWrite (SERVO_STOP_DUTYCYCLE cfg)) s)
    else s in
  let s2 := emit ServoDetach s1 in
  let s3 := set_spinning false s2 in
  let s4 := set_currentPosition (desiredPosition s3) s3 in
  let s5 := eeprom_put_currentPosition (currentPosition s4) s4 in
  let s6 := eeprom_commit s5 in
  emit (DigitalWrite 2 HIGH) s6.

(** [percentCompleted] of [loop]. *)
Definition percentCompleted (now : Z) (s : State) : float :=
  PrimFloat.div (double_of_unsigned (sub32 now (previousMillis s)))
                (double_of_long (interval s)).

(** The position [loop] assigns to [currentPosition]. *)
Definition estimate (now : Z) (s : State) : float :=
  PrimFloat.add
    (PrimFloat.mul (percentCompleted now s)
       (PrimFloat.sub (desiredPosition s) (startingPosition s)))
    (startingPosition s).

(** The test of [loop] that ends a spin:
    [currentPosition == desiredPosition || percentCompleted > 1
     || currentPosition < 0 || currentPosition > 100]. *)
Definition completion_check (percent position desired : float) : bool :=
  PrimFloat.eqb position desired
  || PrimFloat.ltb 1 percent
  || PrimFloat.ltb position 0
  || PrimFloat.ltb 100 position.

(** [void loop()]; [now] is what [millis()] returns. *)
Definition loop (now : Z) (s : State) : State :=
  let currentMillis := now in
  if spinning s then
    let percent := percentCompleted currentMillis s in
    let s1 := set_currentPosition (estimate currentMillis s) s in
    let s2 :=
      if completion_check percent (currentPosition s1) (desiredPosition s1)
      then stopSpinning s1
      else s1 in
    let spinningMillis := sub32 currentMillis (lastResetMillis s2) in
    if SERVO_RESET_REQUIRED cfg && spinning s2
       && (millisPerServoReset <=? spinningMillis)
    then set_lastResetMillis currentMillis (resetServo s2)
    else s2
  else s.

(** The globals as their initialisers leave them, with the EEPROM
    library's RAM copy filled from flash by [EEPROM.begin(512)]. *)
Definition power_on (fl : Cells) : State :=
  let close := u32 (DEFAULT_SECONDS_TO_CLOSE cfg) in
  let open := u32 (DEFAULT_SECONDS_TO_OPEN cfg) in
  {| secondsToClose := close;
     secondsToOpen := open;
     milliesPerPercentClose := millisPerPercent_of close;
     millisPerPercentOpen := millisPerPercent_of open;
     startingPosition := 0%float;
     currentPosition := 0%float;
     desiredPosition := 0%float;
     spinning := false;
     direction := 0;
     dutyCycle := 90;
     previousMillis := 0;
     lastResetMillis := 0;
     interval := 0;
     eeprom := {| ram := fl; flash := fl |};
     log := [] |}.

(** The settings part of [setup]: stored values when the EEPROM is
    initialised, defaults written and committed otherwise. *)
Definition load_settings (s : State) : State :=
  let c := ram (eeprom s) in
  if cell_initialized c then
    {| secondsToClose := cell_secondsToClose c;
       secondsToOpen := cell_secondsToOpen c;
       milliesPerPercentClose := milliesPerPercentClose s;
       millisPerPercentOpen := millisPerPercentOpen s;
       startingPosition := startingPosition s;
       currentPosition := cell_currentPosition c;
       desiredPosition := desiredPosition s;
       spinning := spinning s;
       direction := direction s;
       dutyCycle := dutyCycle s;
       previousMillis := previousMillis s;
       lastResetMillis := lastResetMillis s;
       interval := interval s;
       eeprom := eeprom s;
       log := log s |}
  else
    let c' := {| cell_initialized := true;
                 cell_secondsToClose := secondsToClose s;
                 cell_secondsToOpen := secondsToOpen s;
                 cell_currentPosition := currentPosition s |} in
    {| secondsToClose := secondsToClose s;
       secondsToOpen := secondsToOpen s;
       milliesPerPercentClose := milliesPerPercentClose s;
       millisPerPercentOpen := millisPerPercentOpen s;
       startingPosition := startingPosition s;
       currentPosition := currentPosition s;
       desiredPosition := desiredPosition s;
       spinning := spinning s;
       direction := direction s;
       dutyCycle := dutyCycle s;
       previousMillis := previousMillis s;
       lastResetMillis := lastResetMillis s;
       interval := interval s;
       eeprom := {| ram := c'; flash := c' |};
       log := EepromCommit
              :: EepromPutDouble (addr_currentPosition eepromAddresses) (currentPosition s)
              :: EepromPutUInt (addr_secondsToOpen eepromAddresses) (secondsToOpen s)
              :: EepromPutUInt (addr_secondsToClose eepromAddresses) (secondsToClose s)
              :: EepromPutInitialized (addr_initialized eepromAddresses) true
              :: log s |}.

(** The recomputation of the two rates at the end of [setup]. *)
Definition set_rates (s : State) : State :=
  {| secondsToClose := secondsToClose s;
     secondsToOpen := secondsToOpen s;
     milliesPerPercentClose := millisPerPercent_of (secondsToClose s);
     millisPerPercentOpen := millisPerPercent_of (secondsToOpen s);
     startingPosition := startingPosition s;
     currentPosition := currentPosition s;
     desiredPosition := desiredPosition s;
     spinning := spinning s;
     direction := direction s;
     dutyCycle := dutyCycle s;
     previousMillis := previousMillis s;
     lastResetMillis := lastResetMillis s;
     interval := interval s;
     eeprom := eeprom s;
     log := log s |}.

(** [void setup()]; [wifi_connected] is the outcome of
    [WiFi.waitForConnectResult() == WL_CONNECTED], [fl] the flash
    contents at power-on. *)
Definition setup (wifi_connected : bool) (fl : Cells) : State :=
  let s0 := emit (DigitalWrite (LED_BUILTIN cfg) LOW)
              (emit ServoDetach (power_on fl)) in
  if wifi_connected then
    let s1 := set_rates (load_settings s0) in
    emit (DigitalWrite (LED_BUILTIN cfg) HIGH) (emit (DigitalWrite 2 HIGH) s1)
  else s0.

(** The [/state] route: 0 and 1 while spinning, 2 when stopped. *)
Definition state_code (s : State) : Z :=
  if spinning s then (if direction s =? -1 then 0 else 1) else 2.

(** The two entry points that change the state: the [/set] route and one
    pass of [loop]. *)
Inductive Op : Type :=
| Set_position (newPosition : float) (now : Z)
| Tick (now : Z).

(** The [/set] route with a [position] parameter. *)
Definition handle_set (newPosition : float) (now : Z) (s : State) : State :=
  emit (DigitalWrite (LED_BUILTIN cfg) HIGH)
    (startSpinning newPosition now (emit (DigitalWrite (LED_BUILTIN cfg) LOW) s)).

Definition step (o : Op) (s : State) : State :=
  match o with
  | Set_position p now => handle_set p now s
  | Tick now => loop now s
  end.

Definition run (ops : list Op) (s : State) : State :=
  fold_left (fun st o => step o st) ops s.

End Sketch.

(** ** Readings of the log *)

(** The calls an operation added to the log, newest first. *)
Definition new_events (before after : State) : list Event :=
  firstn (length (log after) - length (log before)) (log after).

Definition is_attach (e : Event) : bool :=
  match e with ServoAttach _ => true | _ => false end.

Definition is_servo (e : Event) : bool :=
  match e with
  | ServoAttach _ | ServoWrite _ | ServoDetach => true
  | _ => false
  end.

Definition is_put (e : Event) : bool :=
  match e with
  | EepromPutInitialized _ _ | EepromPutUInt _ _ | EepromPutDouble _ _ => true
  | _ => false
  end.

Definition is_commit (e : Event) : bool :=
  match e with EepromCommit => true | _ => false end.

Definition is_eeprom (e : Event) : bool := is_put e || is_commit e.

(** What [stopSpinning] and [resetServo] add to the log. *)
Definition stop_events (cfg : Config) (desired : float) : list Event :=
  [DigitalWrite 2 HIGH; EepromCommit;
   EepromPutDouble (addr_currentPosition eepromAddresses) desired;
   ServoDetach]
  ++ (if SERVO_STOP_SIGNAL_REQUIRED cfg
      then [Delay (SERVO_STOP_SIGNAL_MILLISECONDS cfg);
            ServoWrite (SERVO_STOP_DUTYCYCLE cfg)]
      else []).

Definition reset_events (cfg : Config) (duty : Z) : list Event :=
  [ServoWrite duty; ServoAttach servoPin;
   Delay (SERVO_RESET_DELAY_MILLISECONDS cfg); ServoDetach].

(** A watchdog refresh happened in the pass of [loop] at [now]: the servo
    was attached again. *)
Definition refresh_performed (cfg : Config) (now : Z) (s : State) : bool :=
  existsb is_attach (new_events s (loop cfg now s)).

(** An operation ended a spin. *)
Definition ends_spin (before after : State) : bool :=
  spinning before && negb (spinning after).

(** How many operations of a run ended a spin. *)
Fixpoint stops (cfg : Config) (ops : list Op) (s : State) : nat :=
  match ops with
  | [] => 0%nat
  | o :: rest =>
      ((if ends_spin s (step cfg o s) then 1 else 0)
       + stops cfg rest (step cfg o s))%nat
  end.

Definition count_puts (l : list Event) : nat := length (filter is_put l).
Definition count_commits (l : list Event) : nat := length (filter is_commit l).

(** ** Ranges of positions *)

(** [0 <= x <= 100]. *)
Definition in_range (x : float) : bool :=
  PrimFloat.leb 0 x && PrimFloat.leb x 100.

(** Neither [x < 0] nor [x > 100]: in range, or NaN. *)
Definition not_outside (x : float) : bool :=
  negb (PrimFloat.ltb x 0) && negb (PrimFloat.ltb 100 x).

Definition target_in_range (o : Op) : Prop :=
  match o with
  | Set_position p _ => in_range p = true
  | Tick _ => True
  end.

Record positions_ok (s : State) : Prop := {
  desired_ok : in_range (desiredPosition s) = true;
  current_ok : not_outside (currentPosition s) = true;
  starting_ok : not_outside (startingPosition s) = true
}.

(** ** The meaning of [direction], from its declaration:
       [int direction; // 1 is closing, -1 is opening] *)

Inductive Direction : Type := Opening | Closing.

Definition direction_meaning (d : Z) : option Direction :=
  if d =? 1 then Some Closing
  else if d =? -1 then Some Opening
  else None.

(** The calibration rate named after a direction. *)
Definition rate_of (d : Direction) (s : State) : Z :=
  match d with
  | Opening => millisPerPercentOpen s
  | Closing => milliesPerPercentClose s
  end.

(** ** Sample configurations and flash contents *)

Definition sample_config : Config := {|
  DEFAULT_SECONDS_TO_CLOSE := 10;
  DEFAULT_SECONDS_TO_OPEN := 10;
  SERVO_RESET_REQUIRED := true;
  SERVO_RESET_EVERY_SECONDS := 3;
  SERVO_RESET_DELAY_MILLISECONDS := 50;
  SERVO_STOP_SIGNAL_REQUIRED := false;
  SERVO_STOP_DUTYCYCLE := 90;
  SERVO_STOP_SIGNAL_MILLISECONDS := 100;
  LED_BUILTIN := 2
|}.

(** As [sample_config], with the periodic servo reset switched off. *)
Definition no_reset_config : Config := {|
  DEFAULT_SECONDS_TO_CLOSE := 10;
  DEFAULT_SECONDS_TO_OPEN := 10;
  SERVO_RESET_REQUIRED := false;
  SERVO_RESET_EVERY_SECONDS := 3;
  SERVO_RESET_DELAY_MILLISECONDS := 50;
  SERVO_STOP_SIGNAL_REQUIRED := false;
  SERVO_STOP_DUTYCYCLE := 90;
  SERVO_STOP_SIGNAL_MILLISECONDS := 100;
  LED_BUILTIN := 2
|}.

(** As [sample_config], with 20 s to open and 10 s to close. *)
Definition uneven_config : Config := {|
  DEFAULT_SECONDS_TO_CLOSE := 10;
  DEFAULT_SECONDS_TO_OPEN := 20;
  SERVO_RESET_REQUIRED := true;
  SERVO_RESET_EVERY_SECONDS := 3;
  SERVO_RESET_DELAY_MILLISECONDS := 50;
  SERVO_STOP_SIGNAL_REQUIRED := false;
  SERVO_STOP_DUTYCYCLE := 90;
  SERVO_STOP_SIGNAL_MILLISECONDS := 100;
  LED_BUILTIN := 2
|}.

(** Flash of a board that never ran the sketch (with the marker clear). *)
Definition blank_flash : Cells := {|
  cell_initialized := false;
  cell_secondsToClose := 0;
  cell_secondsToOpen := 0;
  cell_currentPosition := 0%float
|}.

(** Flash left by an earlier run that stopped at position [p]. *)
Definition stored_flash (p : float) : Cells := {|
  cell_initialized := true;
  cell_secondsToClose := 10;
  cell_secondsToOpen := 10;
  cell_currentPosition := p
|}.

(** ** Intervals *)

(** The product [startSpinning] converts to a [long], for a move from
    [from] to [target] in state [s], and the interval it yields. *)
Definition interval_product (s : State) (from target : float) : float :=
  PrimFloat.mul
    (arduino_abs (PrimFloat.sub target from))
    (double_of_unsigned
       (if PrimFloat.ltb from target
        then millisPerPercentOpen s
        else milliesPerPercentClose s)).

Definition interval_for (s : State) (from target : float) : Z :=
  long_of_double (interval_product s from target).

(** ** Effects of one operation and course of a spin *)

(** What one operation does to the EEPROM and to the log. *)
Record step_effect (cfg : Config) (s s' : State) (l : list Event) : Prop := {
  eff_log : log s' = l ++ log s;
  eff_stop :
    ends_spin s s' = true ->
    filter is_eeprom l
    = [EepromCommit;
       EepromPutDouble (addr_currentPosition eepromAddresses) (desiredPosition s)]
    /\ cell_currentPosition (flash (eeprom s')) = desiredPosition s
    /\ currentPosition s' = desiredPosition s;
  eff_frame :
    ends_spin s s' = false ->
    filter is_eeprom l = [] /\ eeprom s' = eeprom s
}.

(** Where a spin towards [target] that started at [start] with interval
    [iv] can be after some passes of [loop]: still on its way, or stopped
    at [target] with [target] in the flash. *)
Definition on_course (target : float) (start iv : Z) (s : State) : Prop :=
  (spinning s = true /\ desiredPosition s = target
   /\ previousMillis s = start /\ interval s = iv)
  \/ (spinning s = false /\ currentPosition s = target
      /\ cell_currentPosition (flash (eeprom s)) = target).

(** ** Auxiliaries on the binary64 reference implementation *)

(** The last step of [binary_round_aux]: the rounded mantissa is aligned
    once more and checked for overflow. *)
Definition finish (sx : bool) (m e : Z) : spec_float :=
  let '(mrs, e') := shr_fexp prec emax m e loc_Exact in
  match shr_m mrs with
  | Z0 => S754_zero sx
  | Zpos m => if e' <=? emax - prec then S754_finite sx m e' else S754_infinity sx
  | Zneg _ => S754_nan
  end.

(** Not a negative number: a zero, a positive number or infinity, NaN. *)
Definition SFnonneg (x : spec_float) : bool :=
  match x with
  | S754_finite true _ _ | S754_infinity true => false
  | _ => true
  end.

(** ** The web server ([runServer]) *)

(** The requests the server tells apart: the three routes, [/set] with or
    without its [position] parameter, and everything else. *)
Inductive Request : Type :=
| Get_position
| Get_set (position : option float)
| Get_state
| Not_found.

(** The value a response carries; [String(...)] turns it into the text
    that is sent (the formatting is not modelled). *)
Inductive Body : Type :=
| Body_double (v : float)
| Body_int (v : Z).

Record Response : Type := {
  status : Z;
  body : option Body
}.

(** The handlers registered by [runServer]; [now] is what [millis()]
    returns if the handler calls [startSpinning]. *)
Definition serve (cfg : Config) (r : Request) (now : Z) (s : State)
  : State * Response :=
  match r with
  | Get_position =>
      let s0 := emit (DigitalWrite (LED_BUILTIN cfg) LOW) s in
      (emit (DigitalWrite (LED_BUILTIN cfg) HIGH) s0,
       {| status := 200; body := Some (Body_double (currentPosition s0)) |})
  | Get_set param =>
      let s0 := emit (DigitalWrite (LED_BUILTIN cfg) LOW) s in
      let s1 :=
        match param with
        | Some newPosition => startSpinning cfg newPosition now s0
        | None => s0
        end in
      (emit (DigitalWrite (LED_BUILTIN cfg) HIGH) s1,
       {| status := 204; body := None |})
  | Get_state =>
      let s0 := emit (DigitalWrite (LED_BUILTIN cfg) LOW) s in
      (emit (DigitalWrite (LED_BUILTIN cfg) HIGH) s0,
       {| status := 200; body := Some (Body_int (state_code s0)) |})
  | Not_found => (s, {| status := 404; body := None |})
  end.

(** What reaches the sketch once [setup] has returned: a request, or a
    pass of [loop]. *)
Inductive Input : Type :=
| Http (r : Request) (now : Z)
| Pass (now : Z).

Definition react (cfg : Config) (i : Input) (s : State) : State :=
  match i with
  | Http r now => fst (serve cfg r now s)
  | Pass now => loop cfg now s
  end.

Definition drive (cfg : Config) (inputs : list Input) (s : State) : State :=
  fold_left (fun st i => react cfg i st) inputs s.

(** The state [s] with another log. *)
Definition set_log (l : list Event) (s : State) : State :=
  {| secondsToClose := secondsToClose s;
     secondsToOpen := secondsToOpen s;
     milliesPerPercentClose := milliesPerPercentClose s;
     millisPerPercentOpen := millisPerPercentOpen s;
     startingPosition := startingPosition s;
     currentPosition := currentPosition s;
     desiredPosition := desiredPosition s;
     spinning := spinning s;
     direction := direction s;
     dutyCycle := dutyCycle s;
     previousMillis := previousMillis s;
     lastResetMillis := lastResetMillis s;
     interval := interval s;
     eeprom := eeprom s;
     log := l |}.

(** ** The servo as the calls leave it *)

Inductive ServoState : Type :=
| Detached
| Attached (written : option Z).

(** The servo after the calls of a log (newest first), or [None] when
    some call attached an attached servo or wrote to a detached one. *)
Fixpoint servo_after (l : list Event) : option ServoState :=
  match l with
  | [] => Some Detached
  | e :: earlier =>
      match servo_after earlier with
      | None => None
      | Some st =>
          match e, st with
          | ServoAttach _, Detached => Some (Attached None)
          | ServoAttach _, Attached _ => None
          | ServoWrite d, Attached _ => Some (Attached (Some d))
          | ServoWrite _, Detached => None
          | ServoDetach, _ => Some Detached
          | _, _ => Some st
          end
      end
  end.

(** ** What holds of the sketch after [setup] *)

(** The servo, the direction and the interval. *)
Record spin_inv (s : State) : Prop := {
  inv_servo :
    servo_after (log s)
    = Some (if spinning s then Attached (Some (dutyCycle s)) else Detached);
  inv_direction :
    spinning s = true ->
    direction s
    = (if PrimFloat.ltb (startingPosition s) (desiredPosition s) then 1 else -1)
    /\ dutyCycle s
       = (if PrimFloat.ltb (startingPosition s) (desiredPosition s) then 0 else 180);
  inv_interval : LONG_MIN <= interval s <= LONG_MAX
}.

(** The EEPROM and the settings, once [setup] has gone through them. *)
Record eeprom_inv (s : State) : Prop := {
  inv_committed : ram (eeprom s) = flash (eeprom s);
  inv_initialized : cell_initialized (flash (eeprom s)) = true;
  inv_idle_position :
    spinning s = false ->
    cell_currentPosition (flash (eeprom s)) = currentPosition s;
  inv_seconds :
    cell_secondsToClose (flash (eeprom s)) = secondsToClose s
    /\ cell_secondsToOpen (flash (eeprom s)) = secondsToOpen s;
  inv_rates :
    milliesPerPercentClose s = millisPerPercent_of (secondsToClose s)
    /\ millisPerPercentOpen s = millisPerPercent_of (secondsToOpen s)
}.

(** A zero or a finite number: neither an infinity nor NaN. *)
Definition finite_double (x : float) : bool :=
  match Prim2SF x with
  | S754_zero _ | S754_finite _ _ _ => true
  | _ => false
  end.

(** ** Inputs that can act, and the calls that reach a device *)

(** A pass of [loop] or a [/set] request with its parameter; the other
    requests only read. *)
Definition effective (i : Input) : bool :=
  match i with
  | Pass _ => true
  | Http (Get_set (Some _)) _ => true
  | Http _ _ => false
  end.

Definition is_pin_write (e : Event) : bool :=
  match e with DigitalWrite _ _ => true | _ => false end.

(** The calls of a log that go to the servo, the EEPROM or [delay]. *)
Definition device_calls (l : list Event) : list Event :=
  filter (fun e => negb (is_pin_write e)) l.

(** * Properties *)

(** ** The log *)

Lemma new_events_app (before after : State) (l : list Event) :
  log after = l ++ log before -> new_events before after = l.
Proof.
  intros E. unfold new_events. rewrite E, length_app.
  replace (length l + length (log before) - length (log before))%nat
    with (length l + 0)%nat by lia.
  rewrite firstn_app_2. simpl. apply app_nil_r.
Qed.

Lemma new_events_refl (s : State) : new_events s s = [].
Proof. apply (new_events_app s s []). reflexivity. Qed.

Lemma log_stopSpinning (cfg : Config) (s : State) :
  log (stopSpinning cfg s) = stop_events cfg (desiredPosition s) ++ log s.
Proof.
  unfold stopSpinning, stop_events.
  destruct (SERVO_STOP_SIGNAL_REQUIRED cfg); reflexivity.
Qed.

Lemma log_resetServo (cfg : Config) (s : State) :
  log (resetServo cfg s) = reset_events cfg (dutyCycle s) ++ log s.
Proof. reflexivity. Qed.

Lemma stop_events_no_attach (cfg : Config) (d : float) :
  existsb is_attach (stop_events cfg d) = false.
Proof. unfold stop_events. destruct (SERVO_STOP_SIGNAL_REQUIRED cfg); reflexivity. Qed.

Lemma stop_events_eeprom (cfg : Config) (d : float) :
  filter is_eeprom (stop_events cfg d)
  = [EepromCommit; EepromPutDouble (addr_currentPosition eepromAddresses) d].
Proof. unfold stop_events. destruct (SERVO_STOP_SIGNAL_REQUIRED cfg); reflexivity. Qed.

(** ** [stopSpinning] *)

Lemma spinning_stopSpinning (cfg : Config) (s : State) :
  spinning (stopSpinning cfg s) = false.
Proof. reflexivity. Qed.

Lemma currentPosition_stopSpinning (cfg : Config) (s : State) :
  currentPosition (stopSpinning cfg s) = desiredPosition s.
Proof. unfold stopSpinning. destruct (SERVO_STOP_SIGNAL_REQUIRED cfg); reflexivity. Qed.

Lemma desiredPosition_stopSpinning (cfg : Config) (s : State) :
  desiredPosition (stopSpinning cfg s) = desiredPosition s.
Proof. unfold stopSpinning. destruct (SERVO_STOP_SIGNAL_REQUIRED cfg); reflexivity. Qed.

Lemma startingPosition_stopSpinning (cfg : Config) (s : State) :
  startingPosition (stopSpinning cfg s) = startingPosition s.
Proof. unfold stopSpinning. destruct (SERVO_STOP_SIGNAL_REQUIRED cfg); reflexivity. Qed.

Lemma flash_stopSpinning (cfg : Config) (s : State) :
  cell_currentPosition (flash (eeprom (stopSpinning cfg s))) = desiredPosition s.
Proof. unfold stopSpinning. destruct (SERVO_STOP_SIGNAL_REQUIRED cfg); reflexivity. Qed.

(** ** One pass of [loop], by cases *)

Lemma loop_idle (cfg : Config) (now : Z) (s : State) :
  spinning s = false -> loop cfg now s = s.
Proof. intros H. unfold loop. rewrite H. reflexivity. Qed.

Lemma loop_complete (cfg : Config) (now : Z) (s : State) :
  spinning s = true ->
  completion_check (percentCompleted now s) (estimate now s) (desiredPosition s) = true ->
  loop cfg now s = stopSpinning cfg (set_currentPosition (estimate now s) s).
Proof.
  intros H C. unfold loop. rewrite H. cbv zeta.
  change (currentPosition (set_currentPosition (estimate now s) s)) with (estimate now s).
  change (desiredPosition (set_currentPosition (estimate now s) s)) with (desiredPosition s).
  rewrite C, spinning_stopSpinning, andb_false_r. reflexivity.
Qed.

Lemma loop_continue (cfg : Config) (now : Z) (s : State) :
  spinning s = true ->
  completion_check (percentCompleted now s) (estimate now s) (desiredPosition s) = false ->
  loop cfg now s
  = if SERVO_RESET_REQUIRED cfg
       && (millisPerServoReset cfg <=? sub32 now (lastResetMillis s))
    then set_lastResetMillis now
           (resetServo cfg (set_currentPosition (estimate now s) s))
    else set_currentPosition (estimate now s) s.
Proof.
  intros H C. unfold loop. rewrite H. cbv zeta.
  change (currentPosition (set_currentPosition (estimate now s) s)) with (estimate now s).
  change (desiredPosition (set_currentPosition (estimate now s) s)) with (desiredPosition s).
  rewrite C.
  change (spinning (set_currentPosition (estimate now s) s)) with (spinning s).
  change (lastResetMillis (set_currentPosition (estimate now s) s)) with (lastResetMillis s).
  rewrite H, andb_true_r. reflexivity.
Qed.

Lemma completion_check_true_iff (f p d : float) :
  completion_check f p d = true
  <-> (PrimFloat.eqb p d = true \/ PrimFloat.ltb 1 f = true
       \/ PrimFloat.ltb p 0 = true \/ PrimFloat.ltb 100 p = true).
Proof.
  unfold completion_check. rewrite !orb_true_iff. tauto.
Qed.

(** C6.  In a pass of [loop] over a spinning state, [stopSpinning] is
    called exactly when the position just estimated equals
    [desiredPosition], or the elapsed fraction exceeds 1, or the estimate
    is below 0 or above 100.  In that case the pass is the call of
    [stopSpinning] on the state holding the estimate and the controller
    is no longer spinning; in every other case the spin continues with
    its target, start, start time and interval untouched, the estimate in
    [currentPosition] and the EEPROM as it was. *)
Theorem loop_completion_iff (cfg : Config) (now : Z) (s : State) :
  let p := estimate now s in
  let f := percentCompleted now s in
  let complete :=
    PrimFloat.eqb p (desiredPosition s) = true \/ PrimFloat.ltb 1 f = true
    \/ PrimFloat.ltb p 0 = true \/ PrimFloat.ltb 100 p = true in
  spinning s = true ->
  (spinning (loop cfg now s) = false <-> complete)
  /\ (complete ->
      loop cfg now s = stopSpinning cfg (set_currentPosition p s))
  /\ (~ complete ->
      spinning (loop cfg now s) = true
      /\ currentPosition (loop cfg now s) = p
      /\ desiredPosition (loop cfg now s) = desiredPosition s
      /\ startingPosition (loop cfg now s) = startingPosition s
      /\ previousMillis (loop cfg now s) = previousMillis s
      /\ interval (loop cfg now s) = interval s
      /\ eeprom (loop cfg now s) = eeprom s).
Proof.
  intros p f complete H.
  assert (K : complete <-> completion_check f p (desiredPosition s) = true)
    by (symmetry; apply completion_check_true_iff).
  destruct (completion_check f p (desiredPosition s)) eqn:C.
  - pose proof (loop_complete cfg now s H C) as L. fold p in L.
    assert (Y : complete) by (apply K; reflexivity).
    split; [| split].
    + split; [intros _; exact Y | intros _; rewrite L; reflexivity].
    + intros _. exact L.
    + intros N. contradiction.
  - pose proof (loop_continue cfg now s H C) as L. fold p in L.
    assert (N : ~ complete) by (rewrite K; discriminate).
    assert (S : spinning (loop cfg now s) = true).
    { rewrite L. destruct (_ && _); simpl; exact H. }
    split; [| split].
    + split; [intros E; rewrite S in E; discriminate | intros Y; contradiction].
    + intros Y. contradiction.
    + intros _. split; [exact S |].
      rewrite L. destruct (_ && _); repeat split; reflexivity.
Qed.

(** A spin from 0 to 50 at 100 ms per percent, looked at after 2.5 s (it
    continues) and after 5 s (it is complete). *)
Lemma loop_completion_iff_witness :
  let s := startSpinning sample_config 50 1000 (setup sample_config true blank_flash) in
  (spinning (loop sample_config 3500 s) = false
   <-> (PrimFloat.eqb (estimate 3500 s) (desiredPosition s) = true
        \/ PrimFloat.ltb 1 (percentCompleted 3500 s) = true
        \/ PrimFloat.ltb (estimate 3500 s) 0 = true
        \/ PrimFloat.ltb 100 (estimate 3500 s) = true))
  /\ spinning (loop sample_config 3500 s) = true
  /\ spinning (loop sample_config 6000 s) = false.
Proof.
  cbv zeta. split; [| split; vm_compute; reflexivity].
  apply (loop_completion_iff sample_config 3500
           (startSpinning sample_config 50 1000 (setup sample_config true blank_flash))).
  vm_compute. reflexivity.
Defined.

(** ** [startSpinning] *)

Lemma startSpinning_skip (cfg : Config) (p : float) (now : Z) (s : State) :
  startSpinning_guard p s = false ->
  startSpinning cfg p now s
  = emit (DigitalWrite (LED_BUILTIN cfg) HIGH)
      (emit (DigitalWrite (LED_BUILTIN cfg) LOW) s).
Proof.
  intros G. unfold startSpinning.
  change (startSpinning_guard p (emit (DigitalWrite (LED_BUILTIN cfg) LOW) s))
    with (startSpinning_guard p s).
  rewrite G. reflexivity.
Qed.

Lemma startSpinning_start (cfg : Config) (p : float) (now : Z) (s : State) :
  startSpinning_guard p s = true ->
  startSpinning cfg p now s
  = emit (DigitalWrite (LED_BUILTIN cfg) HIGH)
      (startSpinning_body p now (emit (DigitalWrite (LED_BUILTIN cfg) LOW) s)).
Proof.
  intros G. unfold startSpinning.
  change (startSpinning_guard p (emit (DigitalWrite (LED_BUILTIN cfg) LOW) s))
    with (startSpinning_guard p s).
  rewrite G. reflexivity.
Qed.

Lemma startSpinning_guard_false_iff (p : float) (s : State) :
  startSpinning_guard p s = false
  <-> PrimFloat.eqb p (desiredPosition s) = true
      /\ PrimFloat.eqb p (currentPosition s) = true.
Proof.
  unfold startSpinning_guard.
  destruct (PrimFloat.eqb p (desiredPosition s)), (PrimFloat.eqb p (currentPosition s));
    simpl; intuition discriminate.
Qed.

(** Requests at rest.  [startSpinning p] changes nothing when [p]
    equals both [desiredPosition] and [currentPosition]: no spin is
    started, every variable of the sketch and the EEPROM keep their
    values, and the only calls made are the two writes to the LED pin; no
    call goes to the servo.  Every stopped state reached through
    [stopSpinning] has [currentPosition] equal to [desiredPosition], so
    there the condition on [currentPosition] alone is enough. *)
Theorem startSpinning_at_rest_is_noop (cfg : Config) (p : float) (now : Z) :
  (forall s : State,
      PrimFloat.eqb p (desiredPosition s) = true ->
      PrimFloat.eqb p (currentPosition s) = true ->
      let s' := startSpinning cfg p now s in
      s' = emit (DigitalWrite (LED_BUILTIN cfg) HIGH)
             (emit (DigitalWrite (LED_BUILTIN cfg) LOW) s)
      /\ spinning s' = spinning s
      /\ filter is_servo (new_events s s') = [])
  /\ (forall s : State,
      PrimFloat.eqb p (currentPosition (stopSpinning cfg s)) = true ->
      let s0 := stopSpinning cfg s in
      let s' := startSpinning cfg p now s0 in
      spinning s' = false
      /\ s' = emit (DigitalWrite (LED_BUILTIN cfg) HIGH)
                (emit (DigitalWrite (LED_BUILTIN cfg) LOW) s0)
      /\ filter is_servo (new_events s0 s') = []).
Proof.
  assert (A : forall s : State,
      PrimFloat.eqb p (desiredPosition s) = true ->
      PrimFloat.eqb p (currentPosition s) = true ->
      startSpinning cfg p now s
      = emit (DigitalWrite (LED_BUILTIN cfg) HIGH)
          (emit (DigitalWrite (LED_BUILTIN cfg) LOW) s)).
  { intros s D C. apply startSpinning_skip, startSpinning_guard_false_iff. auto. }
  split.
  - intros s D C s'. subst s'. rewrite (A s D C).
    repeat split.
    rewrite (new_events_app s _
               [DigitalWrite (LED_BUILTIN cfg) HIGH; DigitalWrite (LED_BUILTIN cfg) LOW])
      by reflexivity.
    reflexivity.
  - intros s C s0 s'. subst s' s0.
    assert (D : PrimFloat.eqb p (desiredPosition (stopSpinning cfg s)) = true).
    { rewrite desiredPosition_stopSpinning.
      rewrite currentPosition_stopSpinning in C. exact C. }
    rewrite (A _ D C).
    repeat split.
    rewrite (new_events_app (stopSpinning cfg s) _
               [DigitalWrite (LED_BUILTIN cfg) HIGH; DigitalWrite (LED_BUILTIN cfg) LOW])
      by reflexivity.
    reflexivity.
Qed.

(** A move from 0 to 50 has completed; a request for 50 then changes
    nothing but the LED. *)
Lemma startSpinning_at_rest_is_noop_witness :
  let s := loop sample_config 6000
             (startSpinning sample_config 50 1000
                (setup sample_config true blank_flash)) in
  let s' := startSpinning sample_config 50 7000 s in
  spinning s = false
  /\ spinning s' = false
  /\ s' = emit (DigitalWrite 2 HIGH) (emit (DigitalWrite 2 LOW) s)
  /\ filter is_servo (new_events s s') = [].
Proof.
  cbv zeta.
  destruct (startSpinning_at_rest_is_noop sample_config 50 7000) as (A & _).
  destruct (A (loop sample_config 6000
                 (startSpinning sample_config 50 1000
                    (setup sample_config true blank_flash))))
    as (E & S & F).
  - vm_compute. reflexivity.
  - vm_compute. reflexivity.
  - split; [vm_compute; reflexivity |].
    split; [rewrite S; vm_compute; reflexivity |].
    split; [exact E | exact F].
Defined.

(** C3.  [setup] loads [currentPosition] from the EEPROM and leaves
    [desiredPosition] at its initial 0, unlike the first boot (both 0)
    and [stopSpinning] (which makes them equal).  After a boot that
    loaded position 50 the controller is stopped at 50, and a request
    for 50 is not dropped: [startSpinning 50] starts a spin of length 0,
    attaches the servo and writes duty cycle 180. *)
Lemma startSpinning_same_position_after_boot :
  let s := setup sample_config true (stored_flash 50) in
  let s' := startSpinning sample_config 50 1000 s in
  spinning s = false
  /\ PrimFloat.eqb (currentPosition s) 50 = true
  /\ spinning s' = true
  /\ interval s' = 0
  /\ filter is_servo (new_events s s') = [ServoWrite 180; ServoAttach servoPin].
Proof. vm_compute. repeat split; reflexivity. Qed.

(** ** The watchdog *)

Lemma refresh_performed_complete (cfg : Config) (now : Z) (s : State) :
  spinning s = true ->
  completion_check (percentCompleted now s) (estimate now s) (desiredPosition s) = true ->
  refresh_performed cfg now s = false.
Proof.
  intros H C. unfold refresh_performed.
  rewrite (new_events_app s _ (stop_events cfg (desiredPosition s))).
  - apply stop_events_no_attach.
  - rewrite (loop_complete cfg now s H C), log_stopSpinning. reflexivity.
Qed.

Lemma refresh_performed_idle (cfg : Config) (now : Z) (s : State) :
  spinning s = false -> refresh_performed cfg now s = false.
Proof.
  intros H. unfold refresh_performed. rewrite (loop_idle cfg now s H), new_events_refl.
  reflexivity.
Qed.

Lemma refresh_performed_continue (cfg : Config) (now : Z) (s : State) :
  spinning s = true ->
  completion_check (percentCompleted now s) (estimate now s) (desiredPosition s) = false ->
  refresh_performed cfg now s
  = SERVO_RESET_REQUIRED cfg && (millisPerServoReset cfg <=? sub32 now (lastResetMillis s)).
Proof.
  intros H C. unfold refresh_performed. rewrite (loop_continue cfg now s H C).
  destruct (_ && _).
  - rewrite (new_events_app s _ (reset_events cfg (dutyCycle s))); reflexivity.
  - rewrite (new_events_app s _ []); reflexivity.
Qed.

(** C9, as the code has it.  A pass of [loop] refreshes the servo exactly
    when the build has SERVO_RESET_REQUIRED set, the controller is
    spinning and still spinning after the completion test of that pass,
    and [now - lastResetMillis] (on 32 bits) is at least
    [millisPerServoReset].  A pass over a stopped controller changes
    nothing.  A refresh detaches the servo, waits, attaches it and writes
    the same duty cycle, sets [lastResetMillis] to [now] and leaves the
    start time, start and target alone; so no later pass refreshes again
    before [millisPerServoReset] more milliseconds have passed.  A pass
    without a refresh leaves [lastResetMillis] as it was. *)
Theorem refresh_performed_iff (cfg : Config) (now : Z) (s : State) :
  (refresh_performed cfg now s = true
   <-> (SERVO_RESET_REQUIRED cfg = true
        /\ spinning s = true
        /\ completion_check (percentCompleted now s) (estimate now s)
             (desiredPosition s) = false
        /\ millisPerServoReset cfg <= sub32 now (lastResetMillis s)))
  /\ (spinning s = false -> loop cfg now s = s)
  /\ (refresh_performed cfg now s = true ->
      new_events s (loop cfg now s) = reset_events cfg (dutyCycle s)
      /\ lastResetMillis (loop cfg now s) = now
      /\ previousMillis (loop cfg now s) = previousMillis s
      /\ startingPosition (loop cfg now s) = startingPosition s
      /\ desiredPosition (loop cfg now s) = desiredPosition s
      /\ forall later : Z,
          sub32 later now < millisPerServoReset cfg ->
          refresh_performed cfg later (loop cfg now s) = false)
  /\ (refresh_performed cfg now s = false ->
      lastResetMillis (loop cfg now s) = lastResetMillis s).
Proof.
  destruct (spinning s) eqn:H.
  2:{ pose proof (refresh_performed_idle cfg now s H) as R.
      rewrite R, (loop_idle cfg now s H).
      repeat split; try discriminate; intuition discriminate. }
  destruct (completion_check (percentCompleted now s) (estimate now s)
              (desiredPosition s)) eqn:C.
  { pose proof (refresh_performed_complete cfg now s H C) as R.
    rewrite R, (loop_complete cfg now s H C).
    split; [| split; [| split]]; try discriminate.
    - split; [discriminate | intuition discriminate].
    - intros _. unfold stopSpinning.
      destruct (SERVO_STOP_SIGNAL_REQUIRED cfg); reflexivity. }
  pose proof (refresh_performed_continue cfg now s H C) as R.
  pose proof (loop_continue cfg now s H C) as L.
  rewrite R, L.
  destruct (SERVO_RESET_REQUIRED cfg) eqn:Q; simpl andb.
  2:{ split; [| split; [| split]]; try discriminate.
      - split; [discriminate | intuition discriminate].
      - reflexivity. }
  destruct (millisPerServoReset cfg <=? sub32 now (lastResetMillis s)) eqn:D.
  - apply Z.leb_le in D.
    split; [| split; [| split]]; try discriminate.
    + split; auto.
    + intros _. split.
      { apply new_events_app. reflexivity. }
      repeat split.
      intros later Lt.
      set (s1 := set_lastResetMillis now
                   (resetServo cfg (set_currentPosition (estimate now s) s))).
      assert (H1 : spinning s1 = true) by exact H.
      destruct (completion_check (percentCompleted later s1) (estimate later s1)
                  (desiredPosition s1)) eqn:C1.
      * apply refresh_performed_complete; assumption.
      * rewrite (refresh_performed_continue cfg later s1 H1 C1).
        change (lastResetMillis s1) with now.
        apply andb_false_iff. right. apply Z.leb_gt. exact Lt.
  - apply Z.leb_gt in D.
    split; [| split; [| split]]; try discriminate.
    + split; [discriminate |]. intros (_ & _ & _ & K). lia.
    + reflexivity.
Qed.

(** A move from 0 to 100 whose reset period is 3 s: no refresh after 2 s,
    a refresh after 3 s, none 2 s after that one, and none in the pass
    that stops the spin. *)
Lemma refresh_performed_iff_witness :
  let s := startSpinning sample_config 100 0 (setup sample_config true blank_flash) in
  let s3 := loop sample_config 3000 s in
  millisPerServoReset sample_config = 3000
  /\ refresh_performed sample_config 2000 s = false
  /\ refresh_performed sample_config 3000 s = true
  /\ new_events s s3 = reset_events sample_config 0
  /\ lastResetMillis s3 = 3000
  /\ refresh_performed sample_config 5000 s3 = false
  /\ refresh_performed sample_config 6000 s3 = true
  /\ refresh_performed sample_config 12000 s3 = false.
Proof.
  cbv zeta.
  destruct (refresh_performed_iff sample_config 3000
              (startSpinning sample_config 100 0
                 (setup sample_config true blank_flash)))
    as (_ & _ & R & _).
  destruct R as (A & B & _ & _ & _ & C); [vm_compute; reflexivity |].
  split; [vm_compute; reflexivity |]. split; [vm_compute; reflexivity |].
  split; [vm_compute; reflexivity |]. split; [exact A |]. split; [exact B |].
  split; [apply C; vm_compute; reflexivity |].
  split; vm_compute; reflexivity.
Defined.

(** With the periodic reset switched off in Config.h, a spin from 0 to 100
    that is 5 s old and was never refreshed (the reset period is 3 s) is
    not refreshed by the pass of [loop]. *)
Lemma no_refresh_when_reset_not_required :
  let s := startSpinning no_reset_config 100 0 (setup no_reset_config true blank_flash) in
  spinning s = true
  /\ spinning (loop no_reset_config 5000 s) = true
  /\ (millisPerServoReset no_reset_config <=? sub32 5000 (lastResetMillis s)) = true
  /\ refresh_performed no_reset_config 5000 s = false.
Proof. vm_compute. repeat split; reflexivity. Qed.

(** ** The 32-bit clock *)

Lemma sub32_wrapped (t0 t : Z) :
  0 <= t - t0 < two32 -> sub32 (u32 t) (u32 t0) = t - t0.
Proof.
  intros B. unfold sub32, u32.
  rewrite <- Zminus_mod. apply Z.mod_small. exact B.
Qed.

(** C10.  [millis()] is the time since boot reduced modulo 2^32.  When a
    spin started at true time [t0], was last refreshed at true time [tr],
    and [loop] runs at true time [t] less than 2^32 ms after both, the
    32-bit differences [loop] computes are the true elapsed times, however
    often the counter wrapped in between: the elapsed fraction and the
    position estimate are those of [t - t0], and the watchdog compares
    [t - tr] with [millisPerServoReset]. *)
Theorem loop_elapsed_across_wraparound
    (cfg : Config) (t0 tr t : Z) (s : State) :
  previousMillis s = u32 t0 ->
  lastResetMillis s = u32 tr ->
  0 <= t - t0 < two32 ->
  0 <= t - tr < two32 ->
  sub32 (u32 t) (previousMillis s) = t - t0
  /\ sub32 (u32 t) (lastResetMillis s) = t - tr
  /\ percentCompleted (u32 t) s
     = PrimFloat.div (double_of_unsigned (t - t0)) (double_of_long (interval s))
  /\ estimate (u32 t) s
     = PrimFloat.add
         (PrimFloat.mul
            (PrimFloat.div (double_of_unsigned (t - t0)) (double_of_long (interval s)))
            (PrimFloat.sub (desiredPosition s) (startingPosition s)))
         (startingPosition s)
  /\ (spinning s = true ->
      completion_check (percentCompleted (u32 t) s) (estimate (u32 t) s)
        (desiredPosition s) = false ->
      refresh_performed cfg (u32 t) s
      = SERVO_RESET_REQUIRED cfg && (millisPerServoReset cfg <=? t - tr)).
Proof.
  intros P R B0 Br.
  assert (E0 : sub32 (u32 t) (previousMillis s) = t - t0)
    by (rewrite P; apply sub32_wrapped; exact B0).
  assert (Er : sub32 (u32 t) (lastResetMillis s) = t - tr)
    by (rewrite R; apply sub32_wrapped; exact Br).
  split; [exact E0 |]. split; [exact Er |].
  split; [| split].
  - unfold percentCompleted. rewrite E0. reflexivity.
  - unfold estimate, percentCompleted. rewrite E0. reflexivity.
  - intros H C. rewrite (refresh_performed_continue cfg (u32 t) s H C), Er.
    reflexivity.
Qed.

(** A spin from 0 to 50 started 1 s before the counter wraps and looked at
    4 s after the wrap: 5 s have elapsed and the pass of [loop] stops the
    spin at 50. *)
Lemma loop_elapsed_across_wraparound_witness :
  let t0 := two32 - 1000 in
  let t := two32 + 4000 in
  let s := startSpinning sample_config 50 (u32 t0)
             (setup sample_config true blank_flash) in
  (sub32 (u32 t) (previousMillis s) = 5000
   /\ sub32 (u32 t) (lastResetMillis s) = 5000
   /\ percentCompleted (u32 t) s
      = PrimFloat.div (double_of_unsigned 5000) (double_of_long (interval s)))
  /\ u32 t = 4000
  /\ previousMillis s = 4294966296
  /\ spinning (loop sample_config (u32 t) s) = false
  /\ PrimFloat.eqb (currentPosition (loop sample_config (u32 t) s)) 50 = true.
Proof.
  cbv zeta. split; [| vm_compute; repeat split; reflexivity].
  pose proof (loop_elapsed_across_wraparound sample_config
                (two32 - 1000) (two32 - 1000) (two32 + 4000)
                (startSpinning sample_config 50 (u32 (two32 - 1000))
                   (setup sample_config true blank_flash))) as W.
  destruct W as (A & B & C & _).
  - vm_compute. reflexivity.
  - vm_compute. reflexivity.
  - vm_compute. split; [discriminate | reflexivity].
  - vm_compute. split; [discriminate | reflexivity].
  - split; [exact A |]. split; [exact B | exact C].
Defined.

(** ** The EEPROM over runs of operations *)

Lemma filter_put_eeprom (l : list Event) :
  filter is_put (filter is_eeprom l) = filter is_put l.
Proof.
  induction l as [| e l IH]; [reflexivity |].
  destruct e; simpl; rewrite ?IH; reflexivity.
Qed.

Lemma filter_commit_eeprom (l : list Event) :
  filter is_commit (filter is_eeprom l) = filter is_commit l.
Proof.
  induction l as [| e l IH]; [reflexivity |].
  destruct e; simpl; rewrite ?IH; reflexivity.
Qed.

Lemma handle_set_effect (cfg : Config) (p : float) (now : Z) (s : State) :
  ends_spin s (handle_set cfg p now s) = false
  /\ exists l, step_effect cfg s (handle_set cfg p now s) l.
Proof.
  unfold handle_set, ends_spin.
  set (s0 := emit (DigitalWrite (LED_BUILTIN cfg) LOW) s).
  destruct (startSpinning_guard p s0) eqn:G.
  - rewrite (startSpinning_start cfg p now s0 G). split.
    + simpl. apply andb_false_r.
    + destruct (spinning s) eqn:H.
      * eexists. split.
        -- unfold startSpinning_body. simpl. rewrite H. simpl.
           instantiate (1 := [_; _; _; _; _; _; _]). reflexivity.
        -- unfold ends_spin. simpl. rewrite andb_false_r. discriminate.
        -- intros _. split; reflexivity.
      * eexists. split.
        -- unfold startSpinning_body. simpl. rewrite H. simpl.
           instantiate (1 := [_; _; _; _; _; _]). reflexivity.
        -- unfold ends_spin. simpl. rewrite andb_false_r. discriminate.
        -- intros _. split; reflexivity.
  - rewrite (startSpinning_skip cfg p now s0 G). split.
    + simpl. apply andb_negb_r.
    + exists [DigitalWrite (LED_BUILTIN cfg) HIGH; DigitalWrite (LED_BUILTIN cfg) HIGH;
              DigitalWrite (LED_BUILTIN cfg) LOW; DigitalWrite (LED_BUILTIN cfg) LOW].
      split.
      * reflexivity.
      * unfold ends_spin. simpl. rewrite andb_negb_r. discriminate.
      * intros _. split; reflexivity.
Qed.

Lemma loop_effect (cfg : Config) (now : Z) (s : State) :
  exists l, step_effect cfg s (loop cfg now s) l.
Proof.
  destruct (spinning s) eqn:H.
  2:{ exists []. rewrite (loop_idle cfg now s H). split.
      - reflexivity.
      - unfold ends_spin. rewrite H. discriminate.
      - intros _. split; reflexivity. }
  destruct (completion_check (percentCompleted now s) (estimate now s)
              (desiredPosition s)) eqn:C.
  - exists (stop_events cfg (desiredPosition s)).
    rewrite (loop_complete cfg now s H C). split.
    + rewrite log_stopSpinning. reflexivity.
    + intros _. rewrite stop_events_eeprom, flash_stopSpinning,
        currentPosition_stopSpinning. repeat split.
    + unfold ends_spin. rewrite H, spinning_stopSpinning. discriminate.
  - rewrite (loop_continue cfg now s H C).
    destruct (_ && _).
    + exists (reset_events cfg (dutyCycle s)). split.
      * reflexivity.
      * unfold ends_spin. simpl. rewrite H. discriminate.
      * intros _. split; reflexivity.
    + exists []. split.
      * reflexivity.
      * unfold ends_spin. simpl. rewrite H. discriminate.
      * intros _. split; reflexivity.
Qed.

Lemma step_effect_exists (cfg : Config) (o : Op) (s : State) :
  exists l, step_effect cfg s (step cfg o s) l.
Proof.
  destruct o as [p now | now]; simpl.
  - apply handle_set_effect.
  - apply loop_effect.
Qed.

Lemma run_cons (cfg : Config) (o : Op) (ops : list Op) (s : State) :
  run cfg (o :: ops) s = run cfg ops (step cfg o s).
Proof. reflexivity. Qed.

Lemma run_effect (cfg : Config) (ops : list Op) (s : State) :
  exists l,
    log (run cfg ops s) = l ++ log s
    /\ count_puts l = stops cfg ops s
    /\ count_commits l = stops cfg ops s
    /\ (stops cfg ops s = 0%nat ->
        filter is_eeprom l = [] /\ eeprom (run cfg ops s) = eeprom s).
Proof.
  revert s. induction ops as [| o ops IH]; intros s.
  - exists []. simpl. repeat split; reflexivity.
  - rewrite run_cons.
    destruct (step_effect_exists cfg o s) as [l1 [L1 S1 F1]].
    destruct (IH (step cfg o s)) as (l2 & L2 & P2 & C2 & Z2).
    exists (l2 ++ l1). simpl stops.
    split; [rewrite L2, L1; apply app_assoc |].
    unfold count_puts, count_commits in *.
    rewrite !filter_app, !length_app, P2, C2.
    destruct (ends_spin s (step cfg o s)) eqn:E.
    + destruct (S1 eq_refl) as (Q & _ & _).
      rewrite <- (filter_put_eeprom l1), <- (filter_commit_eeprom l1), Q. simpl.
      repeat split; lia.
    + destruct (F1 eq_refl) as (Q & K).
      rewrite <- (filter_put_eeprom l1), <- (filter_commit_eeprom l1), Q. simpl.
      split; [lia |]. split; [lia |].
      intros N. destruct (Z2 N) as (Q2 & K2). split.
      * rewrite Q2. reflexivity.
      * rewrite K2. exact K.
Qed.

(** C7.  A spin is a stretch of operations during which [spinning] stays
    set (a new target keeps it set).  Over any run of [/set] requests and
    passes of [loop] in which no operation ends a spin, the EEPROM (its
    RAM copy and the flash) keeps its contents and neither [put] nor
    [commit] is called.  The operation that ends a spin is a pass of
    [loop]; it calls [put] once, with the spin's [desiredPosition] at the
    address of [currentPosition], then [commit] once, after which the
    flash and [currentPosition] hold that value.  Hence over every run the
    numbers of [put] and of [commit] calls both grow by the number of
    spins that ended. *)
Theorem eeprom_written_once_at_stop (cfg : Config) :
  (forall (ops : list Op) (s : State),
      stops cfg ops s = 0%nat ->
      eeprom (run cfg ops s) = eeprom s
      /\ filter is_eeprom (new_events s (run cfg ops s)) = [])
  /\ (forall (o : Op) (s : State),
      ends_spin s (step cfg o s) = true ->
      (exists now, o = Tick now)
      /\ filter is_eeprom (new_events s (step cfg o s))
         = [EepromCommit;
            EepromPutDouble (addr_currentPosition eepromAddresses) (desiredPosition s)]
      /\ cell_currentPosition (flash (eeprom (step cfg o s))) = desiredPosition s
      /\ currentPosition (step cfg o s) = desiredPosition s)
  /\ (forall (ops : list Op) (s : State),
      count_puts (log (run cfg ops s)) = (count_puts (log s) + stops cfg ops s)%nat
      /\ count_commits (log (run cfg ops s))
         = (count_commits (log s) + stops cfg ops s)%nat).
Proof.
  split; [| split].
  - intros ops s Z.
    destruct (run_effect cfg ops s) as (l & L & _ & _ & F).
    destruct (F Z) as (Q & K). split; [exact K |].
    rewrite (new_events_app s _ l L). exact Q.
  - intros o s E.
    destruct (step_effect_exists cfg o s) as [l [L S _]].
    destruct (S E) as (Q & K1 & K2).
    rewrite (new_events_app s _ l L).
    split; [| auto].
    destruct o as [p now | now]; [| eauto].
    simpl in E. destruct (handle_set_effect cfg p now s) as (N & _).
    rewrite N in E. discriminate.
  - intros ops s.
    destruct (run_effect cfg ops s) as (l & L & P & C & _).
    unfold count_puts, count_commits in *.
    rewrite L, !filter_app, !length_app, P, C. lia.
Qed.

(** A first boot, a move to 70 retargeted to 20 on the way, and the pass
    of [loop] that stops at 20: nothing is written before the stop (the
    flash holds the 0 of the first boot), and the whole run has one more
    [put] and one more [commit] than the boot, for the one spin that
    ended. *)
Lemma eeprom_written_once_at_stop_witness :
  let s := setup sample_config true blank_flash in
  let moving := [Set_position 70 1000; Tick 2500; Tick 4000;
                 Set_position 20 4000; Tick 4500] in
  let all := moving ++ [Tick 6000; Tick 6500] in
  stops sample_config moving s = 0%nat
  /\ spinning (run sample_config moving s) = true
  /\ eeprom (run sample_config moving s) = eeprom s
  /\ filter is_eeprom (new_events s (run sample_config moving s)) = []
  /\ stops sample_config all s = 1%nat
  /\ count_puts (log s) = 4%nat
  /\ count_puts (log (run sample_config all s)) = 5%nat
  /\ count_commits (log (run sample_config all s)) = 2%nat
  /\ cell_currentPosition (flash (eeprom (run sample_config all s))) = 20%float.
Proof.
  cbv zeta.
  destruct (eeprom_written_once_at_stop sample_config) as (A & _ & C).
  destruct (A [Set_position 70 1000; Tick 2500; Tick 4000;
               Set_position 20 4000; Tick 4500]
              (setup sample_config true blank_flash)) as (A1 & A2);
    [vm_compute; reflexivity |].
  destruct (C ([Set_position 70 1000; Tick 2500; Tick 4000;
                Set_position 20 4000; Tick 4500] ++ [Tick 6000; Tick 6500])
              (setup sample_config true blank_flash)) as (C1 & C2).
  split; [vm_compute; reflexivity |]. split; [vm_compute; reflexivity |].
  split; [exact A1 |]. split; [exact A2 |].
  split; [vm_compute; reflexivity |]. split; [vm_compute; reflexivity |].
  split; [rewrite C1; vm_compute; reflexivity |].
  split; [rewrite C2; vm_compute; reflexivity |].
  vm_compute. reflexivity.
Defined.

(** ** Comparisons of [double]s *)

Lemma SFcompare_antisym (a b : spec_float) :
  SFcompare b a = option_map CompOpp (SFcompare a b).
Proof.
  destruct a as [sa | sa | | sa ma ea], b as [sb | sb | | sb mb eb];
    simpl; try reflexivity;
    try (destruct sa; reflexivity); try (destruct sb; reflexivity);
    try (destruct sa, sb; reflexivity).
  destruct sa, sb; simpl; try reflexivity;
    rewrite (Z.compare_antisym ea eb);
    destruct (ea ?= eb); simpl; try reflexivity;
    rewrite (Pos.compare_cont_antisym ma mb Eq); reflexivity.
Qed.

Lemma leb_not_ltb (a b : float) :
  PrimFloat.leb a b = true -> PrimFloat.ltb b a = false.
Proof.
  rewrite leb_spec, ltb_spec. unfold SFleb, SFltb.
  rewrite (SFcompare_antisym (Prim2SF a) (Prim2SF b)).
  destruct (SFcompare (Prim2SF a) (Prim2SF b)) as [[| |] |]; simpl;
    congruence.
Qed.

Lemma in_range_not_outside (x : float) :
  in_range x = true -> not_outside x = true.
Proof.
  unfold in_range, not_outside. intros H.
  apply andb_true_iff in H. destruct H as (A & B).
  rewrite (leb_not_ltb _ _ A), (leb_not_ltb _ _ B). reflexivity.
Qed.

(** ** Positions over runs of operations *)

Lemma stopSpinning_positions_ok (cfg : Config) (s : State) :
  positions_ok s -> positions_ok (stopSpinning cfg s).
Proof.
  intros [D C S]. split.
  - rewrite desiredPosition_stopSpinning. exact D.
  - rewrite currentPosition_stopSpinning. apply in_range_not_outside, D.
  - rewrite startingPosition_stopSpinning. exact S.
Qed.

Lemma handle_set_positions_ok (cfg : Config) (p : float) (now : Z) (s : State) :
  in_range p = true -> positions_ok s -> positions_ok (handle_set cfg p now s).
Proof.
  intros T [D C S]. unfold handle_set.
  set (s0 := emit (DigitalWrite (LED_BUILTIN cfg) LOW) s).
  destruct (startSpinning_guard p s0) eqn:G.
  - rewrite (startSpinning_start cfg p now s0 G). split; simpl; assumption.
  - rewrite (startSpinning_skip cfg p now s0 G). split; simpl; assumption.
Qed.

Lemma loop_positions_ok (cfg : Config) (now : Z) (s : State) :
  positions_ok s -> positions_ok (loop cfg now s).
Proof.
  intros I. destruct (spinning s) eqn:H.
  2:{ rewrite (loop_idle cfg now s H). exact I. }
  destruct (completion_check (percentCompleted now s) (estimate now s)
              (desiredPosition s)) eqn:C.
  - rewrite (loop_complete cfg now s H C).
    destruct I as [D _ S].
    split.
    + rewrite desiredPosition_stopSpinning. exact D.
    + rewrite currentPosition_stopSpinning. apply in_range_not_outside, D.
    + rewrite startingPosition_stopSpinning. exact S.
  - rewrite (loop_continue cfg now s H C).
    assert (N : not_outside (estimate now s) = true).
    { unfold completion_check in C.
      apply orb_false_iff in C. destruct C as (C & C3).
      apply orb_false_iff in C. destruct C as (_ & C2).
      unfold not_outside. rewrite C2, C3. reflexivity. }
    destruct I as [D _ S].
    destruct (_ && _); split; simpl; assumption.
Qed.

(** C8, as the code has it.  [startSpinning] stores the requested target
    unchecked, so the range is kept only for targets that are in range.
    When every requested target is in [0,100] and the run starts from a
    state with [desiredPosition] in [0,100] and [currentPosition] and
    [startingPosition] not outside [0,100], then after every run of
    [/set] requests and passes of [loop] [desiredPosition] is in [0,100]
    and neither [currentPosition] nor [startingPosition] is below 0 or
    above 100.  [stopSpinning] keeps the same property. *)
Theorem positions_stay_in_range (cfg : Config) (ops : list Op) (s : State) :
  positions_ok s ->
  Forall target_in_range ops ->
  positions_ok (run cfg ops s)
  /\ positions_ok (stopSpinning cfg (run cfg ops s)).
Proof.
  intros I F.
  assert (K : positions_ok (run cfg ops s)).
  { revert s I. induction F as [| o ops T F IH]; intros s I.
    - exact I.
    - rewrite run_cons. apply IH.
      destruct o as [p now | now]; simpl.
      + apply handle_set_positions_ok; assumption.
      + apply loop_positions_ok; assumption. }
  split; [exact K | apply stopSpinning_positions_ok, K].
Qed.

(** A first boot, a move to 70 that is retargeted to 20 after 3 s, and a
    pass of [loop] 6 s later that stops the spin at 20. *)
Lemma positions_stay_in_range_witness :
  let s := setup sample_config true blank_flash in
  let ops := [Set_position 70 1000; Tick 2500; Tick 4000;
              Set_position 20 4000; Tick 7000; Tick 10000] in
  positions_ok (run sample_config ops s)
  /\ spinning (run sample_config ops s) = false
  /\ PrimFloat.eqb (currentPosition (run sample_config ops s)) 20 = true.
Proof.
  cbv zeta. split; [| vm_compute; split; reflexivity].
  apply (positions_stay_in_range sample_config
           [Set_position 70 1000; Tick 2500; Tick 4000;
            Set_position 20 4000; Tick 7000; Tick 10000]
           (setup sample_config true blank_flash)).
  - split; vm_compute; reflexivity.
  - repeat constructor; vm_compute; reflexivity.
Defined.

(** Two ways out of the range.  A request for 150 is taken as it is: the
    pass of [loop] 11 s later finds the estimate above 100, stops the
    spin and stores 150 in [currentPosition] and in the flash.  And a
    request for the position the board booted at starts a spin of length
    0, whose estimate in the same millisecond is NaN. *)
Lemma positions_leave_range :
  let s := run sample_config [Set_position 150 1000; Tick 12000]
             (setup sample_config true blank_flash) in
  let n := run sample_config [Set_position 50 1000; Tick 1000]
             (setup sample_config true (stored_flash 50)) in
  spinning s = false
  /\ PrimFloat.ltb 100 (currentPosition s) = true
  /\ PrimFloat.eqb (currentPosition s) 150 = true
  /\ PrimFloat.eqb (cell_currentPosition (flash (eeprom s))) 150 = true
  /\ in_range (currentPosition s) = false
  /\ in_range 50 = true
  /\ PrimFloat.is_nan (currentPosition n) = true
  /\ in_range (currentPosition n) = false.
Proof. vm_compute. repeat split; reflexivity. Qed.

(** ** Starting and retargeting a spin *)

Lemma startSpinning_fields (cfg : Config) (p : float) (now : Z) (s : State) :
  startSpinning_guard p s = true ->
  let s' := startSpinning cfg p now s in
  spinning s' = true
  /\ startingPosition s' = currentPosition s
  /\ currentPosition s' = currentPosition s
  /\ desiredPosition s' = p
  /\ previousMillis s' = now
  /\ lastResetMillis s' = now
  /\ interval s' = interval_for s (currentPosition s) p
  /\ direction s' = (if PrimFloat.ltb (currentPosition s) p then 1 else -1)
  /\ dutyCycle s' = (if PrimFloat.ltb (currentPosition s) p then 0 else 180)
  /\ eeprom s' = eeprom s.
Proof.
  intros G s'. subst s'. rewrite (startSpinning_start cfg p now s G).
  repeat split.
Qed.

(** C5, as the code has it.  When [startSpinning] starts a spin towards
    [target] from [currentPosition], one comparison,
    [target > currentPosition], fixes everything.  When it holds,
    [direction] is 1, which the sketch declares to mean closing, the duty
    cycle is 0 and the interval is computed with [millisPerPercentOpen];
    otherwise (a smaller or equal target, or a NaN on either side)
    [direction] is -1, declared to mean opening, the duty cycle is 180
    and the interval is computed with [milliesPerPercentClose].  The
    interval is |target - currentPosition| times that rate, converted to
    a [long]. *)
Theorem startSpinning_direction_and_rate
    (cfg : Config) (target : float) (now : Z) (s : State) :
  startSpinning_guard target s = true ->
  let s' := startSpinning cfg target now s in
  let up := PrimFloat.ltb (currentPosition s) target in
  direction s' = (if up then 1 else -1)
  /\ direction_meaning (direction s') = Some (if up then Closing else Opening)
  /\ dutyCycle s' = (if up then 0 else 180)
  /\ (let product :=
        PrimFloat.mul
          (arduino_abs (PrimFloat.sub target (currentPosition s)))
          (double_of_unsigned
             (if up then millisPerPercentOpen s else milliesPerPercentClose s)) in
      long_defined product = true -> interval s' = long_of_double product)
  /\ state_code s' = (if up then 1 else 0).
Proof.
  intros G s' up.
  destruct (startSpinning_fields cfg target now s G)
    as (F1 & _ & _ & _ & _ & _ & F7 & F8 & F9 & _).
  fold s' in F1, F7, F8, F9. fold up in F8, F9.
  unfold state_code. rewrite F1, F7, F8, F9.
  unfold interval_for, interval_product. fold up.
  destruct up; repeat split.
Qed.

(** From a first boot at 0 with 20 s to open and 10 s to close, a move to
    50: the comparison holds. *)
Lemma startSpinning_direction_and_rate_witness :
  let s := setup uneven_config true blank_flash in
  let s' := startSpinning uneven_config 50 1000 s in
  PrimFloat.ltb (currentPosition s) 50 = true
  /\ direction s' = 1
  /\ direction_meaning (direction s') = Some Closing
  /\ dutyCycle s' = 0
  /\ interval s' = 10000
  /\ state_code s' = 1.
Proof.
  cbv zeta.
  pose proof (startSpinning_direction_and_rate uneven_config 50 1000
                (setup uneven_config true blank_flash)) as W.
  cbv zeta in W.
  destruct W as (A & B & C & D & E); [vm_compute; reflexivity |].
  split; [vm_compute; reflexivity |].
  split; [exact A |]. split; [exact B |]. split; [exact C |].
  split; [rewrite D; vm_compute; reflexivity | exact E].
Defined.

(** With 20 s to open and 10 s to close (200 and 100 ms per percent), a
    move from 0 to 50 has a target above the position, yet its direction
    is the one the sketch calls closing, not opening; and its interval is
    50 times the opening rate, not 50 times the rate of its direction. *)
Lemma upward_move_is_closing_at_opening_rate :
  let s := setup uneven_config true blank_flash in
  let s' := startSpinning uneven_config 50 1000 s in
  PrimFloat.ltb (currentPosition s) 50 = true
  /\ direction_meaning (direction s') = Some Closing
  /\ rate_of Closing s = 100
  /\ rate_of Opening s = 200
  /\ interval s' = 10000
  /\ (interval s' =? 50 * rate_of Closing s) = false.
Proof. vm_compute. repeat split; reflexivity. Qed.

(** ** Rounding in binary64

    The conversions and the division of [loop], followed through the
    reference implementation of binary64 ([SpecFloat]) that the primitive
    floats are specified against. *)

Lemma digits2_pos_bounds (p : positive) :
  2 ^ (Z.pos (digits2_pos p) - 1) <= Z.pos p < 2 ^ Z.pos (digits2_pos p).
Proof.
  induction p as [p IH | p IH |]; simpl digits2_pos.
  - rewrite Pos2Z.inj_succ.
    replace (Z.succ (Z.pos (digits2_pos p)) - 1) with (Z.succ (Z.pos (digits2_pos p) - 1)) by lia.
    rewrite !Z.pow_succ_r by lia. lia.
  - rewrite Pos2Z.inj_succ.
    replace (Z.succ (Z.pos (digits2_pos p)) - 1) with (Z.succ (Z.pos (digits2_pos p) - 1)) by lia.
    rewrite !Z.pow_succ_r by lia. lia.
  - simpl. lia.
Qed.

Lemma digits2_pos_unique (p : positive) (k : Z) :
  2 ^ (k - 1) <= Z.pos p < 2 ^ k -> Z.pos (digits2_pos p) = k.
Proof.
  intros B. pose proof (digits2_pos_bounds p) as D.
  set (d := Z.pos (digits2_pos p)) in *.
  assert (0 < d) by (unfold d; lia).
  assert (0 < k).
  { destruct (Z_lt_le_dec 0 k); [assumption |].
    assert (2 ^ k <= 2 ^ 0) by (apply Z.pow_le_mono_r; lia).
    simpl in *. lia. }
  destruct (Z_lt_le_dec d k) as [L | L].
  - assert (2 ^ d <= 2 ^ (k - 1)) by (apply Z.pow_le_mono_r; lia). lia.
  - destruct (Z_lt_le_dec k d) as [G | G]; [| lia].
    assert (2 ^ k <= 2 ^ (d - 1)) by (apply Z.pow_le_mono_r; lia). lia.
Qed.

Lemma digits53 (p : positive) :
  4503599627370496 <= Z.pos p < 9007199254740992 -> digits2_pos p = 53%positive.
Proof.
  intros B. assert (Z.pos (digits2_pos p) = 53) by (apply digits2_pos_unique; simpl; lia).
  congruence.
Qed.

Lemma digits54 (p : positive) :
  9007199254740992 <= Z.pos p < 18014398509481984 -> digits2_pos p = 54%positive.
Proof.
  intros B. assert (Z.pos (digits2_pos p) = 54) by (apply digits2_pos_unique; simpl; lia).
  congruence.
Qed.

Lemma fexp_normal (d e : Z) : -1074 <= d + e - 53 -> fexp prec emax (d + e) = d + e - 53.
Proof. intros. unfold fexp, SpecFloat.emin, prec, emax. lia. Qed.

Lemma shr_fexp_53 (q : positive) (e : Z) (l : location) :
  digits2_pos q = 53%positive -> -1074 <= e ->
  shr_fexp prec emax (Z.pos q) e l = (shr_record_of_loc (Z.pos q) l, e).
Proof.
  intros D E. unfold shr_fexp. simpl Zdigits2. rewrite D.
  rewrite fexp_normal by lia.
  replace (53 + e - 53 - e) with 0 by lia. reflexivity.
Qed.

Lemma shr_fexp_54 (q : positive) (e : Z) (l : location) :
  digits2_pos q = 54%positive -> -1075 <= e ->
  shr_fexp prec emax (Z.pos q) e l = (shr_1 (shr_record_of_loc (Z.pos q) l), e + 1).
Proof.
  intros D E. unfold shr_fexp. simpl Zdigits2. rewrite D.
  rewrite fexp_normal by lia.
  replace (54 + e - 53 - e) with 1 by lia. reflexivity.
Qed.

Lemma binary_round_aux_finish sx mx ex lx :
  binary_round_aux prec emax sx mx ex lx
  = let '(mrs, e') := shr_fexp prec emax mx ex lx in
    finish sx (round_nearest_even (shr_m mrs) (loc_of_shr_record mrs)) e'.
Proof. reflexivity. Qed.

Lemma finish_normal (r : positive) (e : Z) :
  4503599627370496 <= Z.pos r <= 9007199254740992 -> -1074 <= e <= 970 ->
  exists m' e', finish false (Z.pos r) e = S754_finite false m' e'
    /\ ((e' = e /\ m' = r) \/ e' = e + 1).
Proof.
  intros B E. unfold finish.
  destruct (Z.eq_dec (Z.pos r) 9007199254740992) as [T | T].
  - injection T as T. subst r.
    rewrite shr_fexp_54 by (reflexivity || lia). simpl.
    destruct (_ <=? _) eqn:X; [| apply Z.leb_gt in X; lia].
    eexists _, _. split; [reflexivity | right; reflexivity].
  - rewrite shr_fexp_53 by (try apply digits53; lia). simpl.
    destruct (_ <=? _) eqn:X; [| apply Z.leb_gt in X; lia].
    eexists _, _. split; [reflexivity | left; split; reflexivity].
Qed.

Lemma round_nearest_even_bounds (m : Z) (l : location) :
  m <= round_nearest_even m l <= m + 1.
Proof.
  destruct l as [| [| |]]; simpl; try lia. destruct (Z.even m); lia.
Qed.

Lemma loc_of_record_of (m : Z) (l : location) :
  loc_of_shr_record (shr_record_of_loc m l) = l /\ shr_m (shr_record_of_loc m l) = m.
Proof. destruct l as [| [| |]]; split; reflexivity. Qed.

Lemma shr_m_shr_1 (q : positive) (l : location) :
  (1 < q)%positive -> shr_m (shr_1 (shr_record_of_loc (Z.pos q) l)) = Z.pos q / 2.
Proof.
  intros Q. destruct l as [| [| |]]; destruct q as [q | q |]; try lia; simpl shr_m.
  all: first [ rewrite Pos2Z.inj_xI; apply (Z.div_unique _ 2 (Z.pos q) 1); lia
             | rewrite Pos2Z.inj_xO; apply (Z.div_unique _ 2 (Z.pos q) 0); lia
             | idtac ].
Qed.

Lemma binary_round_aux_53 (q : positive) (e : Z) (l : location) :
  4503599627370496 <= Z.pos q < 9007199254740992 -> -1074 <= e <= 900 ->
  exists m' e', binary_round_aux prec emax false (Z.pos q) e l = S754_finite false m' e'
    /\ ((e' = e /\ Z.pos q <= Z.pos m') \/ e' = e + 1).
Proof.
  intros B E. rewrite binary_round_aux_finish, shr_fexp_53 by (try apply digits53; lia).
  destruct (loc_of_record_of (Z.pos q) l) as (L1 & L2). rewrite L1, L2.
  pose proof (round_nearest_even_bounds (Z.pos q) l) as R.
  destruct (round_nearest_even (Z.pos q) l) as [| r | r] eqn:K; try lia.
  destruct (finish_normal r e) as (m' & e' & F & C); [lia | lia |].
  exists m', e'. split; [exact F |].
  destruct C as [(C1 & C2) | C]; [left; subst; lia | right; exact C].
Qed.

Lemma binary_round_aux_54 (q : positive) (e : Z) (l : location) :
  9007199254740992 <= Z.pos q < 18014398509481984 -> -1075 <= e <= 900 ->
  exists m' e', binary_round_aux prec emax false (Z.pos q) e l = S754_finite false m' e'
    /\ ((e' = e + 1 /\ Z.pos q / 2 <= Z.pos m') \/ e' = e + 2).
Proof.
  intros B E. rewrite binary_round_aux_finish, shr_fexp_54 by (try apply digits54; lia).
  assert (Q : (1 < q)%positive) by lia.
  pose proof (shr_m_shr_1 q l Q) as M. rewrite M.
  assert (H : 4503599627370496 <= Z.pos q / 2 < 9007199254740992).
  { split; [apply Z.div_le_lower_bound; lia | apply Z.div_lt_upper_bound; lia]. }
  pose proof (round_nearest_even_bounds (Z.pos q / 2)
                (loc_of_shr_record (shr_1 (shr_record_of_loc (Z.pos q) l)))) as R.
  destruct (round_nearest_even (Z.pos q / 2) _) as [| r | r] eqn:K; try lia.
  destruct (finish_normal r (e + 1)) as (m' & e' & F & C); [lia | lia |].
  exists m', e'. split; [exact F |].
  destruct C as [(C1 & C2) | C]; [left; subst; lia | right; lia].
Qed.

(** [(double)n] for [0 < n < 2^53] is [n] itself: a positive finite float
    whose 53-bit mantissa is [n] shifted left. *)

Lemma iter_xO (p : positive) (k : positive) :
  Z.pos (Pos.iter xO p k) = Z.pos p * 2 ^ Z.pos k.
Proof.
  revert p. induction k as [| k IH] using Pos.peano_ind; intros p.
  - simpl. lia.
  - rewrite Pos.iter_succ, Pos2Z.inj_xO, IH, Pos2Z.inj_succ, Z.pow_succ_r by lia. lia.
Qed.

Lemma binary_round_aux_exact (m : positive) (e : Z) :
  4503599627370496 <= Z.pos m < 9007199254740992 -> -1074 <= e <= 971 ->
  binary_round_aux prec emax false (Z.pos m) e loc_Exact = S754_finite false m e.
Proof.
  intros B E.
  rewrite binary_round_aux_finish, shr_fexp_53 by (try apply digits53; lia).
  change (finish false (Z.pos m) e = S754_finite false m e).
  unfold finish. rewrite shr_fexp_53 by (try apply digits53; lia).
  change (shr_m (shr_record_of_loc (Z.pos m) loc_Exact)) with (Z.pos m).
  cbv beta iota.
  destruct (_ <=? _) eqn:X; [reflexivity | apply Z.leb_gt in X; unfold emax, prec in X; lia].
Qed.

Lemma binary_normalize_pos (p : positive) :
  Z.pos (digits2_pos p) <= 53 ->
  exists m, binary_normalize prec emax (Z.pos p) 0 false
            = S754_finite false m (Z.pos (digits2_pos p) - 53)
    /\ Z.pos m = Z.pos p * 2 ^ (53 - Z.pos (digits2_pos p))
    /\ 4503599627370496 <= Z.pos m < 9007199254740992.
Proof.
  intros D. pose proof (digits2_pos_bounds p) as B.
  remember (Z.pos (digits2_pos p)) as d eqn:Ed.
  assert (P : 2 ^ (d - 1) * 2 ^ (53 - d) = 4503599627370496).
  { rewrite <- Z.pow_add_r by lia. replace (d - 1 + (53 - d)) with 52 by lia. reflexivity. }
  assert (P' : 2 ^ d * 2 ^ (53 - d) = 9007199254740992).
  { rewrite <- Z.pow_add_r by lia. replace (d + (53 - d)) with 53 by lia. reflexivity. }
  assert (P0 : 0 < 2 ^ (53 - d)) by (apply Z.pow_pos_nonneg; lia).
  assert (R : 4503599627370496 <= Z.pos p * 2 ^ (53 - d) < 9007199254740992) by nia.
  unfold binary_normalize, binary_round. rewrite <- Ed.
  rewrite (fexp_normal d 0) by lia.
  unfold shl_align.
  destruct (d + 0 - 53 - 0) as [| k | k] eqn:K; try lia.
  - assert (T : 53 - d = 0) by lia. rewrite T in *. rewrite Z.mul_1_r in R.
    exists p. rewrite binary_round_aux_exact by lia.
    split; [f_equal; lia |]. split; [rewrite Z.pow_0_r; lia | lia].
  - assert (53 - d = Z.pos k) as Ek by lia.
    pose proof (iter_xO p k) as I. rewrite <- Ek in I.
    exists (Pos.iter xO p k). rewrite binary_round_aux_exact by lia.
    split; [f_equal; lia |]. split; [exact I | lia].
Qed.

Lemma fexp_eq (z : Z) : -1021 <= z -> fexp prec emax z = z - 53.
Proof. intros. unfold fexp, SpecFloat.emin, prec, emax. lia. Qed.

Lemma SFdiv_core_binary_53 (mx my : positive) (ex ey : Z) :
  digits2_pos mx = 53%positive -> digits2_pos my = 53%positive ->
  -1021 <= ex - ey ->
  SFdiv_core_binary prec emax (Z.pos mx) ex (Z.pos my) ey
  = ((Z.pos mx * 2 ^ 53) / Z.pos my, ex - ey - 53,
     new_location (Z.pos my) ((Z.pos mx * 2 ^ 53) mod Z.pos my)).
Proof.
  intros Dx Dy E. unfold SFdiv_core_binary. simpl Zdigits2. rewrite Dx, Dy.
  rewrite fexp_eq by lia.
  replace (Z.min (53 + ex - (53 + ey) - 53) (ex - ey)) with (ex - ey - 53) by lia.
  replace (ex - ey - (ex - ey - 53)) with 53 by lia.
  rewrite Z.shiftl_mul_pow2 by lia.
  unfold Z.div, Z.modulo.
  destruct (Z.div_eucl (Z.pos mx * 2 ^ 53) (Z.pos my)) as [q r]. reflexivity.
Qed.

Lemma one_lt_finite (m : positive) (e : Z) :
  -52 < e \/ (e = -52 /\ 4503599627370496 < Z.pos m) ->
  SFltb (S754_finite false 4503599627370496 (-52)) (S754_finite false m e) = true.
Proof.
  intros [H | (H & K)]; unfold SFltb, SFcompare.
  - replace (-52 ?= e) with Lt by (symmetry; apply Z.compare_lt_iff; lia). reflexivity.
  - subst e. rewrite Z.compare_refl.
    change (Pos.compare_cont Eq 4503599627370496 m) with (4503599627370496 ?= m)%positive.
    replace (4503599627370496 ?= m)%positive with Lt
      by (symmetry; apply Pos.compare_lt_iff; lia).
    reflexivity.
Qed.

Lemma digits2_pos_mono (a b : positive) :
  Z.pos b <= Z.pos a -> Z.pos (digits2_pos b) <= Z.pos (digits2_pos a).
Proof.
  intros L. pose proof (digits2_pos_bounds a) as A. pose proof (digits2_pos_bounds b) as B.
  destruct (Z_lt_le_dec (Z.pos (digits2_pos a)) (Z.pos (digits2_pos b))) as [G | G]; [| lia].
  assert (2 ^ Z.pos (digits2_pos a) <= 2 ^ (Z.pos (digits2_pos b) - 1))
    by (apply Z.pow_le_mono_r; lia).
  lia.
Qed.

Lemma digits2_pos_le_32 (a : positive) :
  Z.pos a < 2 ^ 32 -> Z.pos (digits2_pos a) <= 32.
Proof.
  intros L. pose proof (digits2_pos_bounds a) as A.
  destruct (Z_lt_le_dec 32 (Z.pos (digits2_pos a))) as [G | G]; [| lia].
  assert (2 ^ 32 <= 2 ^ (Z.pos (digits2_pos a) - 1)) by (apply Z.pow_le_mono_r; lia).
  lia.
Qed.

(** The quotient of two 32-bit integers [a > b > 0], as the board
    computes it on [double]s, is greater than 1. *)
Lemma SFdiv_integers_gt_one (a b : positive) :
  Z.pos b < Z.pos a < 2 ^ 32 ->
  SFltb (S754_finite false 4503599627370496 (-52))
    (SFdiv prec emax (binary_normalize prec emax (Z.pos a) 0 false)
       (binary_normalize prec emax (Z.pos b) 0 false)) = true.
Proof.
  intros (L & U).
  pose proof (digits2_pos_le_32 a U) as Da.
  pose proof (digits2_pos_mono a b ltac:(lia)) as Dab.
  pose proof (digits2_pos_bounds a) as Ba. pose proof (digits2_pos_bounds b) as Bb.
  destruct (binary_normalize_pos a ltac:(lia)) as (mx & Nx & Vx & Rx).
  destruct (binary_normalize_pos b ltac:(lia)) as (my & Ny & Vy & Ry).
  rewrite Nx, Ny.
  remember (Z.pos (digits2_pos a)) as da eqn:Eda.
  remember (Z.pos (digits2_pos b)) as db eqn:Edb.
  assert (0 < db) by lia.
  unfold SFdiv.
  rewrite SFdiv_core_binary_53 by (try apply digits53; lia).
  replace (da - 53 - (db - 53) - 53) with (da - db - 53) by lia.
  simpl xorb.
  set (q := Z.pos mx * 2 ^ 53 / Z.pos my).
  set (l := new_location (Z.pos my) ((Z.pos mx * 2 ^ 53) mod Z.pos my)).
  assert (Ta : 2 ^ 21 <= 2 ^ (53 - da)) by (apply Z.pow_le_mono_r; lia).
  assert (Tb : 2 ^ 21 <= 2 ^ (53 - db)) by (apply Z.pow_le_mono_r; lia).
  change (2 ^ 21) with 2097152 in Ta, Tb.
  change (2 ^ 53) with 9007199254740992 in *.
  assert (Qu : q < 18014398509481984).
  { apply Z.div_lt_upper_bound; lia. }
  destruct (Z.eq_dec da db) as [E | E].
  - (* same number of bits *)
    assert (M : Z.pos my + 2097152 <= Z.pos mx).
    { rewrite Vx, Vy, E. nia. }
    assert (Ql : 9007199254740992 + 2097152 <= q).
    { apply Z.div_le_lower_bound; lia. }
    destruct q as [| q' | q'] eqn:Eq; try lia.
    destruct (binary_round_aux_54 q' (da - db - 53) l) as (m' & e' & F & C);
      [lia | lia |].
    rewrite F. apply one_lt_finite.
    assert (9007199254740992 + 2097152 <= 2 * (Z.pos q' / 2) + 1).
    { pose proof (Z.div_mod (Z.pos q') 2 ltac:(lia)).
      pose proof (Z.mod_pos_bound (Z.pos q') 2 ltac:(lia)). lia. }
    destruct C as [(C1 & C2) | C]; [right; split; lia | left; lia].
  - (* [a] has more bits than [b] *)
    assert (My : Z.pos my <= 9007199254740992 - 2097152).
    { assert (2 ^ db * 2 ^ (53 - db) = 9007199254740992).
      { rewrite <- Z.pow_add_r by lia. replace (db + (53 - db)) with 53 by lia.
        reflexivity. }
      rewrite Vy. nia. }
    assert (Ql : 4503599627370496 + 1 <= q).
    { apply Z.div_le_lower_bound; lia. }
    destruct q as [| q' | q'] eqn:Eq; try lia.
    destruct (Z_lt_le_dec (Z.pos q') 9007199254740992) as [S | S].
    + destruct (binary_round_aux_53 q' (da - db - 53) l) as (m' & e' & F & C);
        [lia | lia |].
      rewrite F. apply one_lt_finite.
      destruct C as [(C1 & C2) | C]; lia.
    + destruct (binary_round_aux_54 q' (da - db - 53) l) as (m' & e' & F & C);
        [lia | lia |].
      rewrite F. apply one_lt_finite. left. lia.
Qed.

Lemma Prim2SF_double_of_unsigned (n : Z) :
  0 <= n < 2 ^ 63 ->
  Prim2SF (double_of_unsigned n) = binary_normalize prec emax n 0 false.
Proof.
  intros B. unfold double_of_unsigned.
  rewrite of_uint63_spec, Uint63.of_Z_spec, Z.mod_small; [reflexivity |].
  exact B.
Qed.

Lemma double_of_long_nonneg (n : Z) :
  0 <= n -> double_of_long n = double_of_unsigned n.
Proof.
  intros B. unfold double_of_long.
  destruct (n <? 0) eqn:E; [apply Z.ltb_lt in E; lia | reflexivity].
Qed.

Lemma Prim2SF_one : Prim2SF 1 = S754_finite false 4503599627370496 (-52).
Proof. reflexivity. Qed.

(** More than the whole interval has elapsed: the fraction computed by
    [loop] is greater than 1, also for an interval of 0. *)
Lemma elapsed_fraction_gt_one (elapsed i : Z) :
  0 <= i < elapsed -> elapsed < 2 ^ 32 ->
  PrimFloat.ltb 1 (PrimFloat.div (double_of_unsigned elapsed) (double_of_long i)) = true.
Proof.
  intros (I0 & I1) E.
  rewrite ltb_spec, div_spec, Prim2SF_one, (double_of_long_nonneg i I0).
  rewrite !Prim2SF_double_of_unsigned by lia.
  unfold SF64div.
  destruct elapsed as [| a | a]; try lia.
  destruct i as [| b | b]; try lia.
  - destruct (binary_normalize_pos a) as (m & N & _).
    { pose proof (digits2_pos_le_32 a E). lia. }
    rewrite N. reflexivity.
  - apply SFdiv_integers_gt_one. lia.
Qed.


(** ** The sign of the computed interval *)

Lemma binary_round_aux_nonneg (m e : Z) (l : location) :
  SFnonneg (binary_round_aux prec emax false m e l) = true.
Proof.
  unfold binary_round_aux.
  destruct (shr_fexp prec emax m e l) as [mrs e1].
  destruct (shr_fexp prec emax _ e1 loc_Exact) as [mrs2 e2].
  destruct (shr_m mrs2); [reflexivity | | reflexivity].
  destruct (e2 <=? emax - prec); reflexivity.
Qed.

Lemma double_of_unsigned_nonneg (n : Z) :
  SFnonneg (Prim2SF (double_of_unsigned n)) = true.
Proof.
  unfold double_of_unsigned. rewrite of_uint63_spec.
  pose proof (Uint63.to_Z_bounded (Uint63.of_Z n)) as B.
  destruct (Uint63.to_Z (Uint63.of_Z n)) as [| p | p]; [reflexivity | | lia].
  simpl binary_normalize. unfold binary_round.
  destruct (shl_align p 0 _) as [mz ez]. apply binary_round_aux_nonneg.
Qed.

Lemma arduino_abs_nonneg (x : float) :
  SFnonneg (Prim2SF (arduino_abs x)) = true.
Proof.
  unfold arduino_abs. destruct (PrimFloat.ltb 0 x) eqn:L.
  - rewrite ltb_spec in L. change (Prim2SF 0) with (S754_zero false) in L.
    destruct (Prim2SF x) as [s | s | | s m e]; try reflexivity;
      destruct s; try reflexivity; discriminate.
  - rewrite ltb_spec in L. change (Prim2SF 0) with (S754_zero false) in L.
    rewrite opp_spec.
    destruct (Prim2SF x) as [s | s | | s m e]; try reflexivity;
      destruct s; try reflexivity; discriminate.
Qed.

Lemma SFmul_nonneg (a b : spec_float) :
  SFnonneg a = true -> SFnonneg b = true -> SFnonneg (SFmul prec emax a b) = true.
Proof.
  destruct a as [sa | sa | | sa ma ea], b as [sb | sb | | sb mb eb];
    try reflexivity; try (destruct sa; discriminate); try (destruct sb; discriminate);
    try (destruct sa, sb; try discriminate; reflexivity).
  destruct sa, sb; try discriminate. intros _ _.
  simpl. apply binary_round_aux_nonneg.
Qed.

(** Whatever the double, the result is a [long]. *)
Lemma long_of_double_range (x : float) :
  LONG_MIN <= long_of_double x <= LONG_MAX.
Proof.
  unfold long_of_double.
  destruct (SFtrunc (Prim2SF x)) as [v |].
  - destruct ((LONG_MIN <=? v) && (v <=? LONG_MAX)) eqn:R.
    + apply andb_true_iff in R. destruct R as (A & B).
      apply Z.leb_le in A, B. lia.
    + unfold LONG_MIN, LONG_MAX. lia.
  - unfold LONG_MIN, LONG_MAX. lia.
Qed.

(** Where the conversion is defined, [long_of_double] is the integer part. *)
Lemma long_of_double_defined (x : float) :
  long_defined x = true -> SFtrunc (Prim2SF x) = Some (long_of_double x).
Proof.
  unfold long_defined, long_of_double.
  destruct (SFtrunc (Prim2SF x)) as [v |]; [| discriminate].
  intros H. rewrite H. reflexivity.
Qed.

Lemma SFtrunc_nonneg (x : spec_float) (v : Z) :
  SFnonneg x = true -> SFtrunc x = Some v -> 0 <= v.
Proof.
  destruct x as [s | s | | s m e]; unfold SFnonneg, SFtrunc; try discriminate.
  - intros _ E. injection E as E. lia.
  - destruct s; [discriminate |]. intros _ E. injection E as E. subst v.
    destruct e as [| p | p].
    + rewrite Z.pow_0_r. lia.
    + assert (0 < 2 ^ Z.pos p) by (apply Z.pow_pos_nonneg; lia).
      apply (Z.mul_nonneg_nonneg (Z.pos m) (2 ^ Z.pos p)); lia.
    + assert (0 < 2 ^ Z.pos p) by (apply Z.pow_pos_nonneg; lia).
      apply (Z.div_pos (Z.pos m) (2 ^ Z.pos p)); lia.
Qed.

(** The product of [startSpinning] is never a negative number. *)
Lemma interval_product_nonneg (s : State) (from target : float) :
  SFnonneg (Prim2SF (interval_product s from target)) = true.
Proof.
  unfold interval_product. rewrite mul_spec. apply SFmul_nonneg.
  - apply arduino_abs_nonneg.
  - apply double_of_unsigned_nonneg.
Qed.

(** Where its conversion is defined, the interval is not negative. *)
Lemma interval_for_nonneg (s : State) (from target : float) :
  long_defined (interval_product s from target) = true ->
  0 <= interval_for s from target <= LONG_MAX.
Proof.
  intros D. unfold interval_for.
  pose proof (long_of_double_range (interval_product s from target)) as R.
  pose proof (long_of_double_defined _ D) as T.
  pose proof (SFtrunc_nonneg _ _ (interval_product_nonneg s from target) T).
  lia.
Qed.

Lemma interval_for_range (s : State) (from target : float) :
  LONG_MIN <= interval_for s from target <= LONG_MAX.
Proof. apply long_of_double_range. Qed.

(** ** Retargeting a spin *)

(** C4, as the code has it.  [loop] keeps its estimate of the position in
    [currentPosition], and [startSpinning] starts from [currentPosition]
    without estimating again.  So when a pass of [loop] at [now] leaves
    the controller spinning and a request for [target] then starts a new
    spin at time [later], the new spin starts at the position estimated
    at [now] (not at the old start or the old target, and not at what an
    estimate at [later] would give), its target is [target], its start
    time and last-reset time are [later], and its interval is
    |target - estimate| times the rate chosen by comparing [target] with
    the estimate, converted to a [long]; where that conversion is defined
    the interval is not negative.  For a move from 0 to 100 at 100 ms per
    percent with a pass of [loop] after 2000 ms: retargeted to 30 the new
    spin starts at 20 and lasts 1000 ms, which is |30 - 20| * 100;
    retargeted to 5 it starts at 20 and lasts 1500 ms, which is
    |5 - 20| * 100. *)
Theorem retarget_starts_from_last_estimate :
  (forall (cfg : Config) (now later : Z) (target : float) (s : State),
      spinning s = true ->
      spinning (loop cfg now s) = true ->
      startSpinning_guard target (loop cfg now s) = true ->
      let live := estimate now s in
      let s' := startSpinning cfg target later (loop cfg now s) in
      spinning s' = true
      /\ startingPosition s' = live
      /\ desiredPosition s' = target
      /\ previousMillis s' = later
      /\ lastResetMillis s' = later
      /\ (long_defined (interval_product s live target) = true ->
          interval s' = long_of_double (interval_product s live target)
          /\ 0 <= interval s'))
  /\ (let s0 := setup sample_config true blank_flash in
      let s1 := startSpinning sample_config 100 5000 s0 in
      let s2 := loop sample_config 7000 s1 in
      let s3 := startSpinning sample_config 30 7000 s2 in
      let s4 := startSpinning sample_config 5 7000 s2 in
      millisPerPercentOpen s0 = 100 /\ milliesPerPercentClose s0 = 100
      /\ startingPosition s1 = 0%float /\ desiredPosition s1 = 100%float
      /\ interval s1 = 10000
      /\ spinning s2 = true /\ currentPosition s2 = 20%float
      /\ spinning s3 = true
      /\ startingPosition s3 = 20%float
      /\ desiredPosition s3 = 30%float
      /\ interval s3 = 1000
      /\ long_defined (interval_product s1 20 30) = true
      /\ interval_product s1 20 30 = 1000%float
      /\ arduino_abs (PrimFloat.sub 30 20) = 10%float
      /\ spinning s4 = true
      /\ startingPosition s4 = 20%float
      /\ desiredPosition s4 = 5%float
      /\ interval s4 = 1500
      /\ interval_product s1 20 5 = 1500%float
      /\ arduino_abs (PrimFloat.sub 5 20) = 15%float).
Proof.
  split.
  - intros cfg now later target s H H' G live s'.
    destruct (completion_check (percentCompleted now s) (estimate now s)
                (desiredPosition s)) eqn:C.
    { rewrite (loop_complete cfg now s H C), spinning_stopSpinning in H'.
      discriminate. }
    pose proof (loop_continue cfg now s H C) as L.
    destruct (startSpinning_fields cfg target later (loop cfg now s) G)
      as (F1 & F2 & _ & F4 & F5 & F6 & F7 & _).
    assert (E : currentPosition (loop cfg now s) = live
                /\ interval_product (loop cfg now s) live target
                   = interval_product s live target).
    { rewrite L. destruct (_ && _); split; reflexivity. }
    destruct E as (E1 & E2).
    subst s'. rewrite F2, F7, E1. unfold interval_for. rewrite E2.
    repeat match goal with |- _ /\ _ => split end;
      try assumption; try reflexivity.
    intros D. split; [reflexivity |].
    pose proof (interval_for_nonneg s live target D) as N.
    unfold interval_for in N. lia.
  - vm_compute. repeat split; reflexivity.
Qed.

(** A move from 0 to 100 at 100 ms per percent, a pass of [loop] 2000 ms
    after the start that leaves the estimate at 20, and a request for 30
    another 2000 ms later with no pass in between.  An estimate at the
    time of the request would be 40, above the new target; the new spin
    starts at 20, below it, is due to last |30 - 20| * 100 ms and turns
    the servo the way it was turning. *)
Lemma retarget_uses_a_stale_estimate :
  let s1 := startSpinning sample_config 100 5000
              (setup sample_config true blank_flash) in
  let s2 := loop sample_config 7000 s1 in
  let s3 := startSpinning sample_config 30 9000 s2 in
  spinning s2 = true
  /\ estimate 9000 s2 = 40%float
  /\ startingPosition s3 = 20%float
  /\ PrimFloat.eqb (startingPosition s3) (estimate 9000 s2) = false
  /\ previousMillis s3 = 9000
  /\ interval s3 = 1000
  /\ direction s3 = 1
  /\ PrimFloat.ltb (desiredPosition s3) (estimate 9000 s2) = true.
Proof. vm_compute. repeat split; reflexivity. Qed.

Lemma sub32_bounds (a b : Z) : 0 <= sub32 a b < 2 ^ 32.
Proof. unfold sub32, u32, two32. apply Z.mod_pos_bound. reflexivity. Qed.

(** ** Convergence *)

Lemma loop_overdue (cfg : Config) (now : Z) (s : State) :
  spinning s = true ->
  0 <= interval s < sub32 now (previousMillis s) ->
  PrimFloat.ltb 1 (percentCompleted now s) = true
  /\ loop cfg now s = stopSpinning cfg (set_currentPosition (estimate now s) s).
Proof.
  intros H B.
  assert (G : PrimFloat.ltb 1 (percentCompleted now s) = true).
  { unfold percentCompleted. apply elapsed_fraction_gt_one; [exact B |].
    apply sub32_bounds. }
  split; [exact G |].
  apply loop_complete; [exact H |].
  apply completion_check_true_iff. auto.
Qed.

Lemma loop_on_course (cfg : Config) (target : float) (start iv now : Z) (s : State) :
  on_course target start iv s -> on_course target start iv (loop cfg now s).
Proof.
  intros [(H & D & P & I) | (H & C & F)].
  - destruct (completion_check (percentCompleted now s) (estimate now s)
                (desiredPosition s)) eqn:K.
    + right. rewrite (loop_complete cfg now s H K).
      rewrite spinning_stopSpinning, currentPosition_stopSpinning, flash_stopSpinning.
      auto.
    + left. rewrite (loop_continue cfg now s H K).
      destruct (_ && _); simpl; auto.
  - right. rewrite (loop_idle cfg now s H). auto.
Qed.

Lemma ticks_on_course (cfg : Config) (target : float) (start iv : Z)
    (ts : list Z) (s : State) :
  on_course target start iv s -> on_course target start iv (run cfg (map Tick ts) s).
Proof.
  revert s. induction ts as [| t ts IH]; intros s J; [exact J |].
  simpl map. rewrite run_cons. apply IH. simpl. apply loop_on_course, J.
Qed.

Lemma run_app (cfg : Config) (l1 l2 : list Op) (s : State) :
  run cfg (l1 ++ l2) s = run cfg l2 (run cfg l1 s).
Proof. unfold run. apply fold_left_app. Qed.

(** C1, as the code has it.  A spin towards [target] is started at time
    [start] by [startSpinning] (with an interval that fits a [long]).
    Passes of [loop] follow at any times [ts], and then one at a time
    [now] at which more than the interval has elapsed since [start]
    ([now - start] on 32 bits exceeds [interval]).  After that pass the
    controller is stopped (the [/state] route answers 2), and
    [currentPosition] and the value in the flash are exactly [target].
    If the pass at [now] is the first one, it is the one that detects
    completion and calls [stopSpinning]. *)
Theorem spin_stops_after_interval
    (cfg : Config) (target : float) (start now : Z) (ts : list Z) (s0 : State) :
  startSpinning_guard target s0 = true ->
  long_defined (interval_product s0 (currentPosition s0) target) = true ->
  let s := startSpinning cfg target start s0 in
  interval s < sub32 now start ->
  let s' := run cfg (map Tick ts ++ [Tick now]) s in
  spinning s' = false
  /\ state_code s' = 2
  /\ currentPosition s' = target
  /\ cell_currentPosition (flash (eeprom s')) = target
  /\ PrimFloat.ltb 1 (percentCompleted now s) = true
  /\ loop cfg now s = stopSpinning cfg (set_currentPosition (estimate now s) s).
Proof.
  intros G LD s Late s'.
  destruct (startSpinning_fields cfg target start s0 G)
    as (F1 & _ & _ & F4 & F5 & _ & F7 & _).
  fold s in F1, F4, F5, F7.
  pose proof (interval_for_nonneg s0 (currentPosition s0) target LD) as IB.
  rewrite <- F7 in IB.
  assert (J : on_course target start (interval s) s) by (left; auto).
  assert (K : spinning s' = false /\ currentPosition s' = target
              /\ cell_currentPosition (flash (eeprom s')) = target).
  { subst s'. rewrite run_app.
    pose proof (ticks_on_course cfg target start (interval s) ts s J) as J1.
    set (s1 := run cfg (map Tick ts) s) in *.
    change (run cfg [Tick now] s1) with (loop cfg now s1).
    destruct J1 as [(H & D & P & I) | (H & C & F)].
    - destruct (loop_overdue cfg now s1 H) as (_ & L).
      { rewrite I, P. lia. }
      rewrite L, spinning_stopSpinning, currentPosition_stopSpinning, flash_stopSpinning.
      auto.
    - rewrite (loop_idle cfg now s1 H). auto. }
  destruct K as (K1 & K2 & K3).
  destruct (loop_overdue cfg now s F1) as (P & L).
  { rewrite F5. lia. }
  unfold state_code. rewrite K1. auto 10.
Qed.

(** The move from 0 to 50 at 100 ms per percent, with passes of [loop]
    after 1 s, after 4 s (a watchdog refresh) and after 5001 ms. *)
Lemma spin_stops_after_interval_witness :
  let s0 := setup sample_config true blank_flash in
  let s := startSpinning sample_config 50 1000 s0 in
  let s' := run sample_config (map Tick [2000; 5000] ++ [Tick 6001]) s in
  interval s = 5000
  /\ sub32 6001 1000 = 5001
  /\ spinning s' = false
  /\ state_code s' = 2
  /\ currentPosition s' = 50%float
  /\ cell_currentPosition (flash (eeprom s')) = 50%float.
Proof.
  cbv zeta.
  pose proof (spin_stops_after_interval sample_config 50 1000 6001 [2000; 5000]
                (setup sample_config true blank_flash)) as W.
  cbv zeta in W.
  destruct W as (A & B & C & D & _).
  - vm_compute. reflexivity.
  - vm_compute. reflexivity.
  - vm_compute. reflexivity.
  - split; [vm_compute; reflexivity |]. split; [vm_compute; reflexivity |].
    split; [exact A |]. split; [exact B |]. split; [exact C | exact D].
Defined.

(** The scenario of the specification: 10 s to close, a move from 0 to 50.
    The interval is 5000 ms, and the pass of [loop] exactly 5000 ms after
    the start estimates 50, stops and stores 50. *)
Example spin_to_50_stops_at_5000 :
  let s0 := setup sample_config true blank_flash in
  let s := startSpinning sample_config 50 1000 s0 in
  let s' := loop sample_config 6000 s in
  milliesPerPercentClose s0 = 100
  /\ direction_meaning (direction s) = Some Closing
  /\ interval s = 5000
  /\ estimate 6000 s = 50%float
  /\ spinning s' = false
  /\ state_code s' = 2
  /\ cell_currentPosition (flash (eeprom s')) = 50%float.
Proof. vm_compute. repeat split; reflexivity. Qed.

(** Exactly [interval] milliseconds after the start is not enough in
    general.  From a stop at 100, a move to one tenth has an interval of
    9990 ms; 9990 ms after the start the fraction is 1 and the estimate is
    [(0.1 - 100) + 100], which is not the double 0.1: the pass of [loop]
    does not stop and the flash still holds 100.  And the zero-length spin
    started after a boot at 50 by a request for 50 is still spinning after
    a pass of [loop] in the same millisecond. *)
Lemma spin_not_stopped_at_interval :
  let tenth := PrimFloat.div 1 10 in
  let s := startSpinning sample_config tenth 1000
             (setup sample_config true (stored_flash 100)) in
  let s' := loop sample_config 10990 s in
  let z := startSpinning sample_config 50 1000
             (setup sample_config true (stored_flash 50)) in
  in_range tenth = true
  /\ interval s = 9990
  /\ sub32 10990 (previousMillis s) = interval s
  /\ spinning s' = true
  /\ PrimFloat.eqb (currentPosition s') tenth = false
  /\ PrimFloat.eqb (cell_currentPosition (flash (eeprom s'))) tenth = false
  /\ interval z = 0
  /\ sub32 1000 (previousMillis z) = interval z
  /\ spinning (loop sample_config 1000 z) = true.
Proof. vm_compute. repeat split; reflexivity. Qed.

(** ** Spins of length 0 *)





(** * Further properties of the sketch *)

(** ** Inputs and runs *)

Lemma drive_cons (cfg : Config) (i : Input) (inputs : list Input) (s : State) :
  drive cfg (i :: inputs) s = drive cfg inputs (react cfg i s).
Proof. reflexivity. Qed.

Lemma drive_app (cfg : Config) (l1 l2 : list Input) (s : State) :
  drive cfg (l1 ++ l2) s = drive cfg l2 (drive cfg l1 s).
Proof. unfold drive. apply fold_left_app. Qed.

Lemma drive_invariant (cfg : Config) (P : State -> Prop) :
  (forall i s, P s -> P (react cfg i s)) ->
  forall inputs s, P s -> P (drive cfg inputs s).
Proof.
  intros Step inputs. induction inputs as [| i inputs IH]; intros s H.
  - exact H.
  - rewrite drive_cons. apply IH, Step, H.
Qed.

Lemma serve_set_some (cfg : Config) (p : float) (now : Z) (s : State) :
  fst (serve cfg (Get_set (Some p)) now s) = handle_set cfg p now s.
Proof. reflexivity. Qed.

(** ** The servo, the direction and the interval are kept *)

Lemma spin_inv_emit_pin (pin : Z) (lv : Level) (s : State) :
  spin_inv s -> spin_inv (emit (DigitalWrite pin lv) s).
Proof.
  intros [S D I]. split; simpl.
  - rewrite S. destruct (spinning s); reflexivity.
  - exact D.
  - exact I.
Qed.

Lemma spin_inv_startSpinning (cfg : Config) (p : float) (now : Z) (s : State) :
  spin_inv s -> spin_inv (startSpinning cfg p now s).
Proof.
  intros H. destruct (startSpinning_guard p s) eqn:G.
  - rewrite (startSpinning_start cfg p now s G).
    destruct H as [S D I]. split.
    + unfold startSpinning_body. simpl. destruct (spinning s); simpl; rewrite S;
        destruct (PrimFloat.ltb (currentPosition s) p); reflexivity.
    + intros _. simpl. split; reflexivity.
    + change (LONG_MIN <= interval_for s (currentPosition s) p <= LONG_MAX).
      apply interval_for_range.
  - rewrite (startSpinning_skip cfg p now s G).
    apply spin_inv_emit_pin, spin_inv_emit_pin, H.
Qed.

Lemma spin_inv_stopSpinning (cfg : Config) (s : State) :
  spinning s = true -> spin_inv s -> spin_inv (stopSpinning cfg s).
Proof.
  intros H [S D I]. rewrite H in S. split.
  - rewrite log_stopSpinning, spinning_stopSpinning. unfold stop_events.
    destruct (SERVO_STOP_SIGNAL_REQUIRED cfg); simpl; rewrite S; reflexivity.
  - rewrite spinning_stopSpinning. discriminate.
  - unfold stopSpinning. destruct (SERVO_STOP_SIGNAL_REQUIRED cfg); exact I.
Qed.

Lemma spin_inv_set_currentPosition (x : float) (s : State) :
  spin_inv s -> spin_inv (set_currentPosition x s).
Proof. intros [S D I]. split; assumption. Qed.

Lemma spin_inv_loop (cfg : Config) (now : Z) (s : State) :
  spin_inv s -> spin_inv (loop cfg now s).
Proof.
  intros H. destruct (spinning s) eqn:Sp.
  2:{ rewrite (loop_idle cfg now s Sp). exact H. }
  destruct (completion_check (percentCompleted now s) (estimate now s)
              (desiredPosition s)) eqn:C.
  - rewrite (loop_complete cfg now s Sp C).
    apply spin_inv_stopSpinning; [exact Sp |].
    apply spin_inv_set_currentPosition, H.
  - rewrite (loop_continue cfg now s Sp C).
    destruct (_ && _); [| apply spin_inv_set_currentPosition, H].
    destruct H as [S D I]. rewrite Sp in S. split.
    + simpl. rewrite S, Sp. reflexivity.
    + exact D.
    + exact I.
Qed.

Lemma spin_inv_react (cfg : Config) (i : Input) (s : State) :
  spin_inv s -> spin_inv (react cfg i s).
Proof.
  intros H. destruct i as [[| [p |] | |] now | now]; simpl.
  - apply spin_inv_emit_pin, spin_inv_emit_pin, H.
  - apply spin_inv_emit_pin, spin_inv_startSpinning, spin_inv_emit_pin, H.
  - apply spin_inv_emit_pin, spin_inv_emit_pin, H.
  - apply spin_inv_emit_pin, spin_inv_emit_pin, H.
  - exact H.
  - apply spin_inv_loop, H.
Qed.

Lemma spin_inv_setup (cfg : Config) (wifi : bool) (fl : Cells) :
  spin_inv (setup cfg wifi fl).
Proof.
  unfold setup. destruct wifi.
  - split.
    + unfold load_settings. simpl.
      destruct (cell_initialized fl); reflexivity.
    + unfold load_settings. simpl. destruct (cell_initialized fl); discriminate.
    + unfold load_settings. simpl.
      destruct (cell_initialized fl); simpl; unfold LONG_MIN, LONG_MAX; lia.
  - split; simpl; try reflexivity; try discriminate. unfold LONG_MIN, LONG_MAX. lia.
Qed.

Lemma spin_inv_reachable (cfg : Config) (wifi : bool) (fl : Cells)
    (inputs : list Input) :
  spin_inv (drive cfg inputs (setup cfg wifi fl)).
Proof.
  apply (drive_invariant cfg spin_inv).
  - intros i s. apply spin_inv_react.
  - apply spin_inv_setup.
Qed.

(** ** The EEPROM and the settings are kept *)

Lemma eeprom_inv_emit (e : Event) (s : State) :
  eeprom_inv s -> eeprom_inv (emit e s).
Proof. intros [A B C D E]. split; assumption. Qed.

Lemma eeprom_inv_startSpinning (cfg : Config) (p : float) (now : Z) (s : State) :
  eeprom_inv s -> eeprom_inv (startSpinning cfg p now s).
Proof.
  intros H. destruct (startSpinning_guard p s) eqn:G.
  - rewrite (startSpinning_start cfg p now s G).
    destruct H as [A B C D E]. split; try assumption. discriminate.
  - rewrite (startSpinning_skip cfg p now s G).
    apply eeprom_inv_emit, eeprom_inv_emit, H.
Qed.

Lemma eeprom_inv_stopSpinning (cfg : Config) (s : State) :
  eeprom_inv s -> eeprom_inv (stopSpinning cfg s).
Proof.
  intros [A B C D E]. unfold stopSpinning.
  destruct (SERVO_STOP_SIGNAL_REQUIRED cfg); split; simpl;
    try reflexivity; try assumption; rewrite A; assumption.
Qed.

Lemma eeprom_inv_loop (cfg : Config) (now : Z) (s : State) :
  eeprom_inv s -> eeprom_inv (loop cfg now s).
Proof.
  intros H. destruct (spinning s) eqn:Sp.
  2:{ rewrite (loop_idle cfg now s Sp). exact H. }
  assert (K : eeprom_inv (set_currentPosition (estimate now s) s)).
  { destruct H as [A B C D E]. split; try assumption.
    simpl. rewrite Sp. discriminate. }
  destruct (completion_check (percentCompleted now s) (estimate now s)
              (desiredPosition s)) eqn:C.
  - rewrite (loop_complete cfg now s Sp C). apply eeprom_inv_stopSpinning, K.
  - rewrite (loop_continue cfg now s Sp C).
    destruct (_ && _); [| exact K].
    destruct K as [A B C' D E]. split; assumption.
Qed.

Lemma eeprom_inv_react (cfg : Config) (i : Input) (s : State) :
  eeprom_inv s -> eeprom_inv (react cfg i s).
Proof.
  intros H. destruct i as [[| [p |] | |] now | now]; simpl.
  - apply eeprom_inv_emit, eeprom_inv_emit, H.
  - apply eeprom_inv_emit, eeprom_inv_startSpinning, eeprom_inv_emit, H.
  - apply eeprom_inv_emit, eeprom_inv_emit, H.
  - apply eeprom_inv_emit, eeprom_inv_emit, H.
  - exact H.
  - apply eeprom_inv_loop, H.
Qed.

Lemma eeprom_inv_setup (cfg : Config) (fl : Cells) :
  eeprom_inv (setup cfg true fl).
Proof.
  unfold setup, load_settings. simpl.
  destruct (cell_initialized fl) eqn:I; split; simpl; auto.
Qed.

Lemma eeprom_inv_reachable (cfg : Config) (fl : Cells) (inputs : list Input) :
  eeprom_inv (drive cfg inputs (setup cfg true fl)).
Proof.
  apply (drive_invariant cfg eeprom_inv).
  - intros i s. apply eeprom_inv_react.
  - apply eeprom_inv_setup.
Qed.

(** ** The calibration is not touched *)

Lemma calibration_stopSpinning (cfg : Config) (s : State) :
  secondsToClose (stopSpinning cfg s) = secondsToClose s
  /\ secondsToOpen (stopSpinning cfg s) = secondsToOpen s
  /\ milliesPerPercentClose (stopSpinning cfg s) = milliesPerPercentClose s
  /\ millisPerPercentOpen (stopSpinning cfg s) = millisPerPercentOpen s.
Proof.
  unfold stopSpinning. destruct (SERVO_STOP_SIGNAL_REQUIRED cfg); repeat split.
Qed.

Lemma calibration_react (cfg : Config) (i : Input) (s : State) :
  secondsToClose (react cfg i s) = secondsToClose s
  /\ secondsToOpen (react cfg i s) = secondsToOpen s
  /\ milliesPerPercentClose (react cfg i s) = milliesPerPercentClose s
  /\ millisPerPercentOpen (react cfg i s) = millisPerPercentOpen s.
Proof.
  destruct i as [[| [p |] | |] now | now]; cbn [react serve fst];
    try (repeat split; fail).
  - set (s0 := emit (DigitalWrite (LED_BUILTIN cfg) LOW) s).
    destruct (startSpinning_guard p s0) eqn:G.
    + rewrite (startSpinning_start cfg p now s0 G). repeat split.
    + rewrite (startSpinning_skip cfg p now s0 G). repeat split.
  - destruct (spinning s) eqn:Sp.
    2:{ rewrite (loop_idle cfg now s Sp). repeat split. }
    destruct (completion_check (percentCompleted now s) (estimate now s)
                (desiredPosition s)) eqn:C.
    + rewrite (loop_complete cfg now s Sp C).
      apply (calibration_stopSpinning cfg (set_currentPosition (estimate now s) s)).
    + rewrite (loop_continue cfg now s Sp C). destruct (_ && _); repeat split.
Qed.

Lemma calibration_drive (cfg : Config) (inputs : list Input) (s : State) :
  secondsToClose (drive cfg inputs s) = secondsToClose s
  /\ secondsToOpen (drive cfg inputs s) = secondsToOpen s
  /\ milliesPerPercentClose (drive cfg inputs s) = milliesPerPercentClose s
  /\ millisPerPercentOpen (drive cfg inputs s) = millisPerPercentOpen s.
Proof.
  revert s. induction inputs as [| i inputs IH]; intros s.
  - repeat split.
  - rewrite drive_cons.
    destruct (IH (react cfg i s)) as (A & B & C & D).
    destruct (calibration_react cfg i s) as (A' & B' & C' & D').
    rewrite A, B, C, D. auto.
Qed.

(** X1.  Whatever requests and passes of [loop] follow [setup], the
    sketch never attaches a servo that is attached and never writes to a
    servo that is detached; and after each of them the servo is attached
    exactly when the controller is spinning, with the duty cycle of the
    spin as the last value written. *)
Theorem servo_follows_spinning
    (cfg : Config) (wifi : bool) (fl : Cells) (inputs : list Input) :
  let s := drive cfg inputs (setup cfg wifi fl) in
  servo_after (log s)
  = Some (if spinning s then Attached (Some (dutyCycle s)) else Detached).
Proof. intros s. apply (inv_servo s), spin_inv_reachable. Qed.

(** X2.  While the controller spins, [direction] and the duty cycle agree
    with the spin it is on: 1 and 0 when the target is above the start,
    -1 and 180 otherwise.  So the [/state] route answers 2 exactly when
    the controller is stopped, 1 when it spins towards a larger position
    and 0 when it spins towards a smaller or equal one. *)
Theorem state_route_reports_the_spin
    (cfg : Config) (wifi : bool) (fl : Cells) (inputs : list Input) (now : Z) :
  let s := drive cfg inputs (setup cfg wifi fl) in
  let up := PrimFloat.ltb (startingPosition s) (desiredPosition s) in
  (spinning s = true ->
   direction s = (if up then 1 else -1) /\ dutyCycle s = (if up then 0 else 180))
  /\ snd (serve cfg Get_state now s)
     = {| status := 200;
          body := Some (Body_int (if spinning s then (if up then 1 else 0) else 2)) |}.
Proof.
  intros s up.
  pose proof (inv_direction s (spin_inv_reachable cfg wifi fl inputs)) as D.
  fold up in D. split; [exact D |].
  simpl. unfold state_code. simpl.
  destruct (spinning s); [| reflexivity].
  destruct (D eq_refl) as (E & _). rewrite E. destruct up; reflexivity.
Qed.

(** X3.  Nothing that follows [setup] changes the calibration: the two
    durations, the two rates derived from them and the two duration cells
    of the flash stay as [setup] left them, and each rate is
    [(seconds * 1000) / 100] of its duration on 32 bits. *)
Theorem calibration_is_fixed_by_setup
    (cfg : Config) (fl : Cells) (inputs : list Input) :
  let s0 := setup cfg true fl in
  let s := drive cfg inputs s0 in
  secondsToClose s = secondsToClose s0
  /\ secondsToOpen s = secondsToOpen s0
  /\ milliesPerPercentClose s = millisPerPercent_of (secondsToClose s0)
  /\ millisPerPercentOpen s = millisPerPercent_of (secondsToOpen s0)
  /\ cell_secondsToClose (flash (eeprom s)) = secondsToClose s0
  /\ cell_secondsToOpen (flash (eeprom s)) = secondsToOpen s0
  /\ secondsToClose s0
     = (if cell_initialized fl then cell_secondsToClose fl
        else u32 (DEFAULT_SECONDS_TO_CLOSE cfg))
  /\ secondsToOpen s0
     = (if cell_initialized fl then cell_secondsToOpen fl
        else u32 (DEFAULT_SECONDS_TO_OPEN cfg)).
Proof.
  intros s0 s.
  destruct (calibration_drive cfg inputs s0) as (A & B & C & D).
  fold s in A, B, C, D.
  pose proof (eeprom_inv_reachable cfg fl inputs) as I. fold s0 s in I.
  destruct (inv_seconds s I) as (S1 & S2).
  destruct (inv_rates s0 (eeprom_inv_setup cfg fl)) as (R1 & R2).
  rewrite S1, S2, A, B, C, D, R1, R2.
  repeat split; unfold s0, setup, load_settings; simpl;
    destruct (cell_initialized fl); reflexivity.
Qed.

(** X4.  After [setup] with WiFi and whatever follows, no write to the
    EEPROM is left uncommitted (the RAM copy equals the flash), the flash
    is marked initialised, and whenever the controller is stopped the
    flash holds exactly [currentPosition]. *)
Theorem flash_holds_the_resting_position
    (cfg : Config) (fl : Cells) (inputs : list Input) :
  let s := drive cfg inputs (setup cfg true fl) in
  ram (eeprom s) = flash (eeprom s)
  /\ cell_initialized (flash (eeprom s)) = true
  /\ (spinning s = false ->
      cell_currentPosition (flash (eeprom s)) = currentPosition s).
Proof.
  intros s. pose proof (eeprom_inv_reachable cfg fl inputs) as I. fold s in I.
  destruct I as [A B C _ _]. auto.
Qed.

(** X5.  Power loss and reboot.  Booting again from the flash a run has
    left writes nothing to the EEPROM and leaves the flash as it is; it
    restores the two durations and the two rates, and starts stopped at
    the position stored in the flash, which is the position the
    controller had if it was stopped when power was lost. *)
Theorem reboot_restores_the_state
    (cfg : Config) (fl : Cells) (inputs : list Input) :
  let s := drive cfg inputs (setup cfg true fl) in
  let s' := setup cfg true (flash (eeprom s)) in
  filter is_eeprom (log s') = []
  /\ flash (eeprom s') = flash (eeprom s)
  /\ ram (eeprom s') = flash (eeprom s)
  /\ spinning s' = false
  /\ secondsToClose s' = secondsToClose s
  /\ secondsToOpen s' = secondsToOpen s
  /\ milliesPerPercentClose s' = milliesPerPercentClose s
  /\ millisPerPercentOpen s' = millisPerPercentOpen s
  /\ currentPosition s' = cell_currentPosition (flash (eeprom s))
  /\ (spinning s = false -> currentPosition s' = currentPosition s).
Proof.
  intros s s'.
  pose proof (eeprom_inv_reachable cfg fl inputs) as I. fold s in I.
  destruct I as [A B C (D1 & D2) (E1 & E2)].
  unfold s', setup, load_settings. simpl. rewrite B. simpl.
  rewrite D1, D2, E1, E2. repeat split. exact C.
Qed.

(** First boot.  When the flash is not marked initialised, [setup]
    with WiFi keeps the defaults of Config.h and position 0, writes the
    marker, the two durations and the position to the EEPROM in that
    order and commits once; the flash then holds exactly these four
    values. *)
Theorem first_boot_writes_defaults (cfg : Config) (fl : Cells) :
  cell_initialized fl = false ->
  let s := setup cfg true fl in
  secondsToClose s = u32 (DEFAULT_SECONDS_TO_CLOSE cfg)
  /\ secondsToOpen s = u32 (DEFAULT_SECONDS_TO_OPEN cfg)
  /\ currentPosition s = 0%float
  /\ spinning s = false
  /\ flash (eeprom s)
     = {| cell_initialized := true;
          cell_secondsToClose := u32 (DEFAULT_SECONDS_TO_CLOSE cfg);
          cell_secondsToOpen := u32 (DEFAULT_SECONDS_TO_OPEN cfg);
          cell_currentPosition := 0%float |}
  /\ filter is_eeprom (log s)
     = [EepromCommit;
        EepromPutDouble (addr_currentPosition eepromAddresses) 0%float;
        EepromPutUInt (addr_secondsToOpen eepromAddresses)
          (u32 (DEFAULT_SECONDS_TO_OPEN cfg));
        EepromPutUInt (addr_secondsToClose eepromAddresses)
          (u32 (DEFAULT_SECONDS_TO_CLOSE cfg));
        EepromPutInitialized (addr_initialized eepromAddresses) true].
Proof.
  intros I s. unfold s, setup, load_settings. simpl. rewrite I. simpl.
  repeat split.
Qed.

(** The first boot of a board with 10 s each way. *)
Lemma first_boot_writes_defaults_witness :
  let s := setup sample_config true blank_flash in
  secondsToClose s = 10
  /\ milliesPerPercentClose s = 100
  /\ cell_secondsToOpen (flash (eeprom s)) = 10
  /\ cell_initialized (flash (eeprom s)) = true
  /\ count_puts (log s) = 4%nat.
Proof.
  cbv zeta.
  destruct (first_boot_writes_defaults sample_config blank_flash eq_refl)
    as (A & _ & _ & _ & B & C).
  split; [exact A |]. split; [vm_compute; reflexivity |].
  rewrite B. split; [vm_compute; reflexivity |]. split; [reflexivity |].
  unfold count_puts. rewrite <- filter_put_eeprom, C. reflexivity.
Defined.

(** X6.  When WiFi does not connect, [setup] returns before it reads or
    writes the EEPROM and before it starts the server: the flash is as
    it was, the stored position and durations are not loaded (position 0
    and the defaults of Config.h stay), and no pass of [loop], however
    many follow, changes anything. *)
Theorem setup_without_wifi_is_inert (cfg : Config) (fl : Cells) (ticks : list Z) :
  let s := setup cfg false fl in
  drive cfg (map Pass ticks) s = s
  /\ flash (eeprom s) = fl
  /\ filter is_eeprom (log s) = []
  /\ spinning s = false
  /\ currentPosition s = 0%float
  /\ secondsToClose s = u32 (DEFAULT_SECONDS_TO_CLOSE cfg)
  /\ secondsToOpen s = u32 (DEFAULT_SECONDS_TO_OPEN cfg).
Proof.
  intros s. split; [| repeat split].
  induction ticks as [| t ticks IH]; [reflexivity |].
  simpl map. rewrite drive_cons. simpl react.
  rewrite (loop_idle cfg t s eq_refl). exact IH.
Qed.

(** ** The timer of [loop] is exact *)

Lemma finish_cases (r : positive) (e : Z) :
  4503599627370496 <= Z.pos r <= 9007199254740992 -> -1074 <= e <= 970 ->
  finish false (Z.pos r) e
  = if Z.pos r <? 9007199254740992
    then S754_finite false r e
    else S754_finite false 4503599627370496 (e + 1).
Proof.
  intros B E. unfold finish.
  destruct (Z.ltb_spec (Z.pos r) 9007199254740992) as [L | L].
  - rewrite shr_fexp_53 by (try apply digits53; lia). simpl.
    destruct (_ <=? _) eqn:X; [reflexivity | apply Z.leb_gt in X; lia].
  - assert (T : Z.pos r = 9007199254740992) by lia.
    injection T as T. subst r.
    rewrite shr_fexp_54 by (reflexivity || lia). simpl.
    destruct (_ <=? _) eqn:X; [reflexivity | apply Z.leb_gt in X; lia].
Qed.

Lemma binary_round_aux_53_upper (q : positive) (e : Z) (l : location) :
  4503599627370496 <= Z.pos q < 9007199254740992 -> -1074 <= e <= 900 ->
  exists m' e', binary_round_aux prec emax false (Z.pos q) e l = S754_finite false m' e'
    /\ (e' = e \/ (e' = e + 1 /\ m' = 4503599627370496%positive)).
Proof.
  intros B E. rewrite binary_round_aux_finish, shr_fexp_53 by (try apply digits53; lia).
  destruct (loc_of_record_of (Z.pos q) l) as (L1 & L2). rewrite L1, L2.
  pose proof (round_nearest_even_bounds (Z.pos q) l) as R.
  destruct (round_nearest_even (Z.pos q) l) as [| r | r] eqn:K; try lia.
  rewrite finish_cases by lia.
  destruct (Z.pos r <? 9007199254740992); eexists _, _; split; try reflexivity; auto.
Qed.

Lemma binary_round_aux_54_upper (q : positive) (e : Z) (l : location) :
  9007199254740992 <= Z.pos q < 18014398509481984 -> -1075 <= e <= 900 ->
  exists m' e', binary_round_aux prec emax false (Z.pos q) e l = S754_finite false m' e'
    /\ (e' = e + 1 \/ (e' = e + 2 /\ m' = 4503599627370496%positive)).
Proof.
  intros B E. rewrite binary_round_aux_finish, shr_fexp_54 by (try apply digits54; lia).
  assert (Q : (1 < q)%positive) by lia.
  pose proof (shr_m_shr_1 q l Q) as M. rewrite M.
  assert (H : 4503599627370496 <= Z.pos q / 2 < 9007199254740992).
  { split; [apply Z.div_le_lower_bound; lia | apply Z.div_lt_upper_bound; lia]. }
  pose proof (round_nearest_even_bounds (Z.pos q / 2)
                (loc_of_shr_record (shr_1 (shr_record_of_loc (Z.pos q) l)))) as R.
  destruct (round_nearest_even (Z.pos q / 2) _) as [| r | r] eqn:K; try lia.
  rewrite finish_cases by lia.
  destruct (Z.pos r <? 9007199254740992); eexists _, _; split; try reflexivity.
  - left. reflexivity.
  - right. split; [lia | reflexivity].
Qed.

Lemma one_not_lt_finite (m : positive) (e : Z) :
  e < -52 \/ (e = -52 /\ m = 4503599627370496%positive) ->
  SFltb (S754_finite false 4503599627370496 (-52)) (S754_finite false m e) = false.
Proof.
  intros [H | (H & K)]; unfold SFltb, SFcompare.
  - replace (-52 ?= e) with Gt by (symmetry; apply Z.compare_gt_iff; lia). reflexivity.
  - subst e m. reflexivity.
Qed.

Lemma new_location_zero (n : Z) : new_location n 0 = loc_Exact.
Proof.
  unfold new_location, new_location_even, new_location_odd.
  destruct (Z.even n); reflexivity.
Qed.

(** The quotient of two 32-bit integers [0 < a <= b], as the board
    computes it on [double]s, is not greater than 1. *)
Lemma SFdiv_integers_le_one (a b : positive) :
  Z.pos a <= Z.pos b < 2 ^ 32 ->
  SFltb (S754_finite false 4503599627370496 (-52))
    (SFdiv prec emax (binary_normalize prec emax (Z.pos a) 0 false)
       (binary_normalize prec emax (Z.pos b) 0 false)) = false.
Proof.
  intros (L & U).
  destruct (Z.eq_dec (Z.pos a) (Z.pos b)) as [E | E].
  { injection E as E. subst b.
    pose proof (digits2_pos_le_32 a U) as Da.
    destruct (binary_normalize_pos a ltac:(lia)) as (mx & Nx & Vx & Rx).
    rewrite Nx. unfold SFdiv.
    rewrite SFdiv_core_binary_53 by (try apply digits53; lia).
    rewrite Z.mul_comm, Z.div_mul, Z.mod_mul, new_location_zero by lia.
    replace (Z.pos (digits2_pos a) - 53 - (Z.pos (digits2_pos a) - 53) - 53)
      with (-53) by lia.
    reflexivity. }
  pose proof (digits2_pos_le_32 b U) as Db.
  pose proof (digits2_pos_mono b a ltac:(lia)) as Dab.
  pose proof (digits2_pos_bounds a) as Ba. pose proof (digits2_pos_bounds b) as Bb.
  destruct (binary_normalize_pos a ltac:(lia)) as (mx & Nx & Vx & Rx).
  destruct (binary_normalize_pos b ltac:(lia)) as (my & Ny & Vy & Ry).
  rewrite Nx, Ny.
  remember (Z.pos (digits2_pos a)) as da eqn:Eda.
  remember (Z.pos (digits2_pos b)) as db eqn:Edb.
  assert (0 < da) by lia.
  unfold SFdiv.
  rewrite SFdiv_core_binary_53 by (try apply digits53; lia).
  replace (da - 53 - (db - 53) - 53) with (da - db - 53) by lia.
  simpl xorb.
  set (q := Z.pos mx * 2 ^ 53 / Z.pos my).
  set (l := new_location (Z.pos my) ((Z.pos mx * 2 ^ 53) mod Z.pos my)).
  change (2 ^ 53) with 9007199254740992 in *.
  assert (Ql : 4503599627370496 <= q) by (apply Z.div_le_lower_bound; lia).
  assert (Qu : q < 18014398509481984) by (apply Z.div_lt_upper_bound; lia).
  destruct (Z.eq_dec da db) as [D | D].
  - (* same number of bits: the quotient is below 1 *)
    assert (M : Z.pos mx < Z.pos my).
    { rewrite Vx, Vy, D.
      assert (0 < 2 ^ (53 - db)) by (apply Z.pow_pos_nonneg; lia). nia. }
    assert (Qs : q < 9007199254740992) by (apply Z.div_lt_upper_bound; lia).
    destruct q as [| q' | q'] eqn:Eq; try lia.
    destruct (binary_round_aux_53_upper q' (da - db - 53) l) as (m' & e' & F & C);
      [lia | lia |].
    rewrite F. apply one_not_lt_finite.
    destruct C as [C | (C1 & C2)]; [left; lia | right; split; [lia | exact C2]].
  - (* [b] has more bits than [a] *)
    destruct q as [| q' | q'] eqn:Eq; try lia.
    destruct (Z_lt_le_dec (Z.pos q') 9007199254740992) as [S | S].
    + destruct (binary_round_aux_53_upper q' (da - db - 53) l) as (m' & e' & F & C);
        [lia | lia |].
      rewrite F. apply one_not_lt_finite. left. lia.
    + destruct (binary_round_aux_54_upper q' (da - db - 53) l) as (m' & e' & F & C);
        [lia | lia |].
      rewrite F. apply one_not_lt_finite.
      destruct C as [C | (C1 & C2)]; [left; lia |].
      destruct (Z.eq_dec e' (-52)); [right; split; assumption | left; lia].
Qed.

(** No more than the whole interval has elapsed: the fraction computed by
    [loop] is not greater than 1 (it is NaN when both are 0). *)
Lemma elapsed_fraction_le_one (elapsed i : Z) :
  0 <= elapsed <= i -> i < 2 ^ 32 ->
  PrimFloat.ltb 1 (PrimFloat.div (double_of_unsigned elapsed) (double_of_long i)) = false.
Proof.
  intros (E0 & E1) I.
  rewrite ltb_spec, div_spec, Prim2SF_one, (double_of_long_nonneg i) by lia.
  rewrite !Prim2SF_double_of_unsigned by lia.
  unfold SF64div.
  destruct i as [| b | b]; try lia.
  - replace elapsed with 0 by lia. reflexivity.
  - destruct elapsed as [| a | a]; try lia.
    + destruct (binary_normalize_pos b) as (m & N & _).
      { pose proof (digits2_pos_le_32 b I). lia. }
      rewrite N. reflexivity.
    + apply SFdiv_integers_le_one. lia.
Qed.

Lemma binary_round_aux_nonpos (m e : Z) (l : location) :
  SFnonneg (SFopp (binary_round_aux prec emax true m e l)) = true.
Proof.
  unfold binary_round_aux.
  destruct (shr_fexp prec emax m e l) as [mrs e1].
  destruct (shr_fexp prec emax _ e1 loc_Exact) as [mrs2 e2].
  destruct (shr_m mrs2); [reflexivity | | reflexivity].
  destruct (e2 <=? emax - prec); reflexivity.
Qed.

Lemma one_not_lt_nonpos (r : spec_float) :
  SFnonneg (SFopp r) = true ->
  SFltb (S754_finite false 4503599627370496 (-52)) r = false.
Proof.
  destruct r as [s | s | | s m e]; try reflexivity;
    destruct s; try reflexivity; discriminate.
Qed.

(** The interval is negative: the fraction computed by [loop] is not
    greater than 1, whatever time has elapsed. *)
Lemma elapsed_fraction_negative_interval (elapsed i : Z) :
  - 2 ^ 32 < i < 0 ->
  PrimFloat.ltb 1 (PrimFloat.div (double_of_unsigned elapsed) (double_of_long i)) = false.
Proof.
  intros (I0 & I1).
  rewrite ltb_spec, div_spec, Prim2SF_one.
  unfold double_of_long.
  destruct (Z.ltb_spec i 0) as [_ | L]; [| lia].
  rewrite opp_spec, (Prim2SF_double_of_unsigned (- i)) by lia.
  destruct (- i) as [| b | b] eqn:B; try lia.
  destruct (binary_normalize_pos b) as (m & N & _).
  { pose proof (digits2_pos_le_32 b ltac:(lia)). lia. }
  rewrite N. clear N.
  remember (Z.pos (digits2_pos b) - 53) as eb eqn:Eb.
  change (SFopp (S754_finite false m eb)) with (S754_finite true m eb).
  pose proof (double_of_unsigned_nonneg elapsed) as P.
  apply one_not_lt_nonpos. unfold SF64div.
  destruct (Prim2SF (double_of_unsigned elapsed)) as [s | s | | s mx ex];
    try reflexivity.
  - destruct s; [discriminate | reflexivity].
  - destruct s; [discriminate |]. unfold SFdiv.
    destruct (SFdiv_core_binary prec emax (Z.pos mx) ex (Z.pos m) eb)
      as [[mz ez] lz].
    apply binary_round_aux_nonpos.
Qed.

(** X7.  The timer test of [loop], [percentCompleted > 1], is exact:
    after [setup] and whatever follows, it holds at a pass of [loop]
    exactly when the interval is not negative and more milliseconds have
    elapsed since the start of the spin (on 32 bits) than the interval;
    the rounding of the division of doubles never makes it fire early or
    late.  This holds for every value a [long] interval can have. *)
Theorem timer_fires_exactly_after_interval
    (cfg : Config) (wifi : bool) (fl : Cells) (inputs : list Input) (now : Z) :
  let s := drive cfg inputs (setup cfg wifi fl) in
  PrimFloat.ltb 1 (percentCompleted now s) = true
  <-> 0 <= interval s < sub32 now (previousMillis s).
Proof.
  intros s.
  pose proof (inv_interval s (spin_inv_reachable cfg wifi fl inputs)) as I.
  pose proof (sub32_bounds now (previousMillis s)) as B.
  unfold LONG_MIN, LONG_MAX in I.
  change (2 ^ 31 - 1) with 2147483647 in I.
  change (- 2 ^ 31) with (-2147483648) in I.
  change (2 ^ 32) with 4294967296 in B.
  unfold percentCompleted.
  destruct (Z_lt_le_dec (interval s) 0) as [N | N].
  { rewrite elapsed_fraction_negative_interval
      by (change (2 ^ 32) with 4294967296; lia).
    split; [discriminate | lia]. }
  destruct (Z_lt_le_dec (interval s) (sub32 now (previousMillis s))) as [L | L].
  - split; [intros _; lia | intros _].
    apply elapsed_fraction_gt_one; [lia | change (2 ^ 32) with 4294967296; lia].
  - rewrite elapsed_fraction_le_one
      by (try change (2 ^ 32) with 4294967296; lia).
    split; [discriminate | lia].
Qed.

(** ** The first instant of a spin *)

Lemma SFeqb_refl_finite (x : spec_float) :
  match x with S754_zero _ | S754_finite _ _ _ => true | _ => false end = true ->
  SFeqb x x = true.
Proof.
  destruct x as [s | s | | s m e]; try discriminate; intros _; unfold SFeqb; simpl.
  - reflexivity.
  - destruct s; rewrite Z.compare_refl, Pos.compare_cont_refl; reflexivity.
Qed.

(** X9.  A pass of [loop] in the very millisecond a spin started (or was
    retargeted) does not move the estimate: when the interval is not 0
    and the start and the distance to the target are finite, the fraction
    is exactly 0 and the estimate equals the starting position. *)
Theorem estimate_at_start_is_the_start (now : Z) (s : State) :
  0 < interval s < 2 ^ 32 ->
  sub32 now (previousMillis s) = 0 ->
  finite_double (startingPosition s) = true ->
  finite_double (PrimFloat.sub (desiredPosition s) (startingPosition s)) = true ->
  percentCompleted now s = 0%float
  /\ PrimFloat.eqb (estimate now s) (startingPosition s) = true.
Proof.
  intros I E Fs Fd.
  assert (P : percentCompleted now s = 0%float).
  { unfold percentCompleted. rewrite E. apply Prim2SF_inj.
    rewrite div_spec, (double_of_long_nonneg (interval s)) by lia.
    rewrite !Prim2SF_double_of_unsigned by lia.
    destruct (interval s) as [| b | b]; try lia.
    destruct (binary_normalize_pos b) as (m & N & _).
    { pose proof (digits2_pos_le_32 b ltac:(lia)). lia. }
    rewrite N. reflexivity. }
  split; [exact P |].
  unfold estimate. rewrite P, eqb_spec, add_spec, mul_spec.
  change (Prim2SF 0) with (S754_zero false).
  unfold finite_double in Fs, Fd.
  destruct (Prim2SF (PrimFloat.sub (desiredPosition s) (startingPosition s)))
    as [sd | sd | | sd md ed]; try discriminate;
    destruct (Prim2SF (startingPosition s)) as [ss | ss | | ss ms es] eqn:S;
    try discriminate; simpl SF64mul; simpl SF64add.
  - destruct sd, ss; reflexivity.
  - apply (SFeqb_refl_finite (S754_finite ss ms es)). reflexivity.
  - destruct sd, ss; reflexivity.
  - apply (SFeqb_refl_finite (S754_finite ss ms es)). reflexivity.
Qed.

(** A move from 0 to 100 retargeted to 30 after 2 s: in the millisecond
    of the retarget the estimate is still 20. *)
Lemma estimate_at_start_is_the_start_witness :
  let s := startSpinning sample_config 30 7000
             (loop sample_config 7000
                (startSpinning sample_config 100 5000
                   (setup sample_config true blank_flash))) in
  interval s = 1000
  /\ percentCompleted 7000 s = 0%float
  /\ PrimFloat.eqb (estimate 7000 s) 20 = true.
Proof.
  cbv zeta.
  destruct (estimate_at_start_is_the_start 7000
              (startSpinning sample_config 30 7000
                 (loop sample_config 7000
                    (startSpinning sample_config 100 5000
                       (setup sample_config true blank_flash)))))
    as (A & B).
  - vm_compute. split; reflexivity.
  - vm_compute. reflexivity.
  - vm_compute. reflexivity.
  - vm_compute. reflexivity.
  - split; [vm_compute; reflexivity |]. split; [exact A |].
    vm_compute. reflexivity.
Defined.

(** ** The rates *)

(** X8.  The rate [setup] derives from a duration, [(seconds * 1000) /
    100] on [unsigned int], is 10 ms per percent for each second of
    travel as long as [seconds * 1000] fits 32 bits, that is up to
    4294967 s; whatever the duration, the rate is at most 42949672. *)
Theorem rate_is_ten_ms_per_second (seconds : Z) :
  (0 <= seconds <= 4294967 -> millisPerPercent_of seconds = 10 * seconds)
  /\ 0 <= millisPerPercent_of seconds <= 42949672.
Proof.
  unfold millisPerPercent_of, u32, two32. change (2 ^ 32) with 4294967296.
  split.
  - intros B. rewrite Z.mod_small by lia.
    replace (seconds * 1000) with (10 * seconds * 100) by lia.
    apply Z.div_mul. lia.
  - pose proof (Z.mod_pos_bound (seconds * 1000) 4294967296 ltac:(lia)) as M.
    split.
    + apply Z.div_pos; lia.
    + assert ((seconds * 1000) mod 4294967296 / 100 < 42949673)
        by (apply Z.div_lt_upper_bound; lia).
      lia.
Qed.

(** 10 s give 100 ms per percent; 4294968 s no longer fit and give 7. *)
Lemma rate_is_ten_ms_per_second_witness :
  millisPerPercent_of 10 = 100
  /\ millisPerPercent_of 4294967 = 42949670
  /\ millisPerPercent_of 4294968 = 7.
Proof.
  destruct (rate_is_ten_ms_per_second 10) as (A & _).
  split; [rewrite A by lia; reflexivity |]. split; reflexivity.
Defined.

(** ** Requests that only read *)

Lemma set_log_log (s : State) : set_log (log s) s = s.
Proof. destruct s. reflexivity. Qed.

Lemma set_log_set_log (l1 l2 : list Event) (s : State) :
  set_log l1 (set_log l2 s) = set_log l1 s.
Proof. reflexivity. Qed.

(** No operation reads the log: on a state with another log it does the
    same and adds the same calls. *)
Lemma react_set_log (cfg : Config) (i : Input) (l : list Event) (s : State) :
  react cfg i (set_log l s)
  = set_log (log (react cfg i (set_log [] s)) ++ l) (react cfg i (set_log [] s)).
Proof.
  destruct i as [[| [p |] | |] now | now]; try reflexivity.
  - cbn [react serve fst]. unfold startSpinning, startSpinning_guard. simpl.
    destruct (_ || _); [| reflexivity].
    unfold startSpinning_body. simpl. destruct (spinning s); reflexivity.
  - cbn [react]. unfold loop. simpl. destruct (spinning s); [| reflexivity].
    destruct (completion_check _ _ _).
    + unfold stopSpinning. destruct (SERVO_STOP_SIGNAL_REQUIRED cfg); simpl;
        rewrite andb_false_r; reflexivity.
    + simpl. destruct (spinning s); simpl; rewrite ?andb_false_r, ?andb_true_r;
        try reflexivity.
      destruct (_ && _); reflexivity.
Qed.

Lemma react_effective (cfg : Config) (i : Input) (s1 s2 : State) :
  set_log [] s1 = set_log [] s2 ->
  device_calls (log s1) = device_calls (log s2) ->
  set_log [] (react cfg i s1) = set_log [] (react cfg i s2)
  /\ device_calls (log (react cfg i s1)) = device_calls (log (react cfg i s2)).
Proof.
  intros V D.
  rewrite <- (set_log_log s1), <- (set_log_log s2).
  rewrite (react_set_log cfg i (log s1) s1), (react_set_log cfg i (log s2) s2).
  rewrite <- V. simpl log. rewrite !set_log_set_log. split; [reflexivity |].
  unfold device_calls in *. rewrite !filter_app, D. reflexivity.
Qed.

Lemma react_not_effective (cfg : Config) (i : Input) (s : State) :
  effective i = false ->
  set_log [] (react cfg i s) = set_log [] s
  /\ device_calls (log (react cfg i s)) = device_calls (log s).
Proof.
  destruct i as [[| [p |] | |] now | now]; try discriminate; intros _;
    split; reflexivity.
Qed.

(** X10.  Requests that only read ([/position], [/state], unknown
    routes) and [/set] requests without the [position] parameter have no
    effect on the blind: dropping them from any sequence of requests and
    passes of [loop] leaves every variable of the sketch and the EEPROM
    the same, and the same calls to the servo, to the EEPROM and to
    [delay], in the same order; only writes to the LED pin are missing. *)
Theorem reading_requests_do_not_interfere
    (cfg : Config) (inputs : list Input) (s : State) :
  let a := drive cfg inputs s in
  let b := drive cfg (filter effective inputs) s in
  set_log [] a = set_log [] b
  /\ device_calls (log a) = device_calls (log b).
Proof.
  cbv zeta.
  assert (G : forall s1 s2,
             set_log [] s1 = set_log [] s2 ->
             device_calls (log s1) = device_calls (log s2) ->
             set_log [] (drive cfg inputs s1)
             = set_log [] (drive cfg (filter effective inputs) s2)
             /\ device_calls (log (drive cfg inputs s1))
                = device_calls (log (drive cfg (filter effective inputs) s2))).
  { induction inputs as [| i inputs IH]; intros s1 s2 V D.
    - split; assumption.
    - rewrite drive_cons. simpl filter. destruct (effective i) eqn:E.
      + rewrite drive_cons.
        destruct (react_effective cfg i s1 s2 V D) as (V' & D').
        apply IH; assumption.
      + destruct (react_not_effective cfg i s1 E) as (V' & D').
        apply IH; [rewrite V'; exact V | rewrite D'; exact D]. }
  apply G; reflexivity.
Qed.

(** Polling [/state] and [/position] around a move from 0 to 50, with a
    [/set] that lacks its parameter and an unknown route: the controller
    ends stopped at 50 either way, with the same device calls. *)
Lemma reading_requests_do_not_interfere_witness :
  let s := setup sample_config true blank_flash in
  let inputs := [Http Get_state 500; Http (Get_set (Some 50%float)) 1000;
                 Http Get_position 2000; Pass 3000; Http (Get_set None) 3500;
                 Http Not_found 4000; Pass 6000; Http Get_state 6500] in
  filter effective inputs
  = [Http (Get_set (Some 50%float)) 1000; Pass 3000; Pass 6000]
  /\ set_log [] (drive sample_config inputs s)
     = set_log [] (drive sample_config (filter effective inputs) s)
  /\ spinning (drive sample_config inputs s) = false
  /\ currentPosition (drive sample_config inputs s) = 50%float.
Proof.
  cbv zeta.
  destruct (reading_requests_do_not_interfere sample_config
              [Http Get_state 500; Http (Get_set (Some 50%float)) 1000;
               Http Get_position 2000; Pass 3000; Http (Get_set None) 3500;
               Http Not_found 4000; Pass 6000; Http Get_state 6500]
              (setup sample_config true blank_flash)) as (A & _).
  split; [reflexivity |]. split; [exact A |].
  split; vm_compute; reflexivity.
Defined.

(** ** What starts a spin, and what a pass of [loop] leaves alone *)

(** X11.  A stopped controller starts spinning only through a [/set]
    request that carries a position differing from [desiredPosition] or
    from [currentPosition]; the spin then has that position as its target
    and the position the controller rested at as its start.  No pass of
    [loop] and no other request starts a spin. *)
Theorem only_set_starts_a_spin (cfg : Config) (i : Input) (s : State) :
  spinning s = false ->
  spinning (react cfg i s) = true ->
  exists (p : float) (now : Z),
    i = Http (Get_set (Some p)) now
    /\ startSpinning_guard p s = true
    /\ desiredPosition (react cfg i s) = p
    /\ startingPosition (react cfg i s) = currentPosition s
    /\ previousMillis (react cfg i s) = now.
Proof.
  intros Idle Spin.
  destruct i as [[| [p |] | |] now | now]; cbn [react serve fst] in *;
    try (simpl in Spin; congruence).
  - exists p, now. split; [reflexivity |].
    set (s0 := emit (DigitalWrite (LED_BUILTIN cfg) LOW) s) in *.
    destruct (startSpinning_guard p s0) eqn:G.
    + split; [exact G |]. rewrite (startSpinning_start cfg p now s0 G).
      repeat split.
    + rewrite (startSpinning_skip cfg p now s0 G) in Spin. simpl in Spin.
      congruence.
  - rewrite (loop_idle cfg now s Idle) in Spin. congruence.
Qed.

(** After a first boot, a request for 50. *)
Lemma only_set_starts_a_spin_witness :
  let s := setup sample_config true blank_flash in
  exists (p : float) (now : Z),
    Http (Get_set (Some 50%float)) 1000 = Http (Get_set (Some p)) now
    /\ startSpinning_guard p s = true
    /\ desiredPosition (react sample_config (Http (Get_set (Some 50%float)) 1000) s) = p
    /\ startingPosition (react sample_config (Http (Get_set (Some 50%float)) 1000) s)
       = currentPosition s
    /\ previousMillis (react sample_config (Http (Get_set (Some 50%float)) 1000) s) = now.
Proof.
  cbv zeta.
  apply (only_set_starts_a_spin sample_config (Http (Get_set (Some 50%float)) 1000)
           (setup sample_config true blank_flash)).
  - vm_compute. reflexivity.
  - vm_compute. reflexivity.
Defined.

(** X12.  A pass of [loop] never changes the target, the start, the start
    time, the interval, the direction or the duty cycle of a spin,
    whether it continues, refreshes the servo or stops; and it never
    turns a stopped controller into a spinning one. *)
Theorem loop_keeps_the_spin_parameters (cfg : Config) (now : Z) (s : State) :
  desiredPosition (loop cfg now s) = desiredPosition s
  /\ startingPosition (loop cfg now s) = startingPosition s
  /\ previousMillis (loop cfg now s) = previousMillis s
  /\ interval (loop cfg now s) = interval s
  /\ direction (loop cfg now s) = direction s
  /\ dutyCycle (loop cfg now s) = dutyCycle s
  /\ (spinning (loop cfg now s) = true -> spinning s = true).
Proof.
  destruct (spinning s) eqn:Sp.
  2:{ rewrite (loop_idle cfg now s Sp). repeat split; congruence. }
  destruct (completion_check (percentCompleted now s) (estimate now s)
              (desiredPosition s)) eqn:C.
  - rewrite (loop_complete cfg now s Sp C). unfold stopSpinning.
    destruct (SERVO_STOP_SIGNAL_REQUIRED cfg); repeat split.
  - rewrite (loop_continue cfg now s Sp C). destruct (_ && _); repeat split.
Qed.

(** ** The interval goes to [double] and back unchanged *)

Lemma SFtrunc_double_of_unsigned (n : Z) :
  0 <= n < 2 ^ 32 -> SFtrunc (Prim2SF (double_of_unsigned n)) = Some n.
Proof.
  intros B. rewrite Prim2SF_double_of_unsigned by lia.
  destruct n as [| p | p]; try lia; [reflexivity |].
  pose proof (digits2_pos_le_32 p ltac:(lia)) as D.
  destruct (binary_normalize_pos p ltac:(lia)) as (m & N & V & _).
  rewrite N. unfold SFtrunc.
  remember (Z.pos (digits2_pos p)) as d eqn:Ed.
  destruct (d - 53) as [| k | k] eqn:K; try lia.
  assert (E : 53 - d = Z.pos k) by lia.
  rewrite V, E, Z.div_mul; [reflexivity |].
  assert (0 < 2 ^ Z.pos k) by (apply Z.pow_pos_nonneg; lia). lia.
Qed.

Lemma SFtrunc_opp (x : spec_float) :
  SFtrunc (SFopp x) = option_map Z.opp (SFtrunc x).
Proof.
  destruct x as [s | s | | s m e]; try reflexivity.
  simpl. destruct s; simpl; f_equal; lia.
Qed.

(** X13.  The conversion [(double)interval] in [loop] loses nothing: for
    every [long] value the double it yields converts back to the same
    [long], so the division in [loop] divides by the interval itself. *)
Theorem interval_to_double_is_exact (n : Z) :
  LONG_MIN <= n <= LONG_MAX ->
  long_defined (double_of_long n) = true
  /\ long_of_double (double_of_long n) = n.
Proof.
  unfold LONG_MIN, LONG_MAX. change (2 ^ 31) with 2147483648. intros B.
  assert (T : SFtrunc (Prim2SF (double_of_long n)) = Some n).
  { unfold double_of_long. destruct (Z.ltb_spec n 0) as [L | L].
    - rewrite opp_spec, SFtrunc_opp, SFtrunc_double_of_unsigned
        by (change (2 ^ 32) with 4294967296; lia).
      simpl. f_equal. lia.
    - apply SFtrunc_double_of_unsigned. change (2 ^ 32) with 4294967296. lia. }
  assert (D : long_defined (double_of_long n) = true).
  { unfold long_defined, LONG_MIN, LONG_MAX. rewrite T.
    change (2 ^ 31) with 2147483648.
    apply andb_true_iff; split; apply Z.leb_le; lia. }
  split; [exact D |].
  pose proof (long_of_double_defined _ D) as E. rewrite T in E.
  injection E as E. symmetry. exact E.
Qed.

(** The interval of the move from 0 to 50, and the most negative [long]. *)
Lemma interval_to_double_is_exact_witness :
  long_of_double (double_of_long 5000) = 5000
  /\ long_of_double (double_of_long LONG_MIN) = LONG_MIN.
Proof.
  split.
  - apply (interval_to_double_is_exact 5000). vm_compute. split; discriminate.
  - apply (interval_to_double_is_exact LONG_MIN). vm_compute. split; discriminate.
Defined.
